(** * Real-time stream processing and alerting engine

    A shallow embedding of [services/realtime_processor.py]
    ([RealtimeProcessorService]) and the properties of its windows,
    metrics, alert rules, cooldowns and forecasts.

    Conventions of the embedding:
    - a [datetime] is an integer number of microseconds ([Z]) counted from
      1970-01-01T00:00:00; every [datetime.utcnow()] a method reads is the
      explicit argument [now], a naive time; the timestamp of an event is
      naive or offset-aware ([tz_aware]), as [datetime.fromisoformat] made
      it; [timedelta(minutes=m)] is [minutes m]; the differences
      [current_time - timedelta(minutes=m)] are range-checked as Python
      does ([minutes_ago]), the sum of the clock and a cooldown in
      [_check_alerts] is the integer sum, as it is in Python while it stays
      below [datetime.max];
    - Python numbers stored in [metrics] (ints and floats) are exact
      rationals ([Q]), compared up to [Qeq]; true division is [Qdiv]; the
      forecast is computed in binary64 ([round_binary64]);
    - dictionaries keyed by strings are [gmap string _]; dictionaries whose
      iteration order matters (the rule table, [defaultdict(list)] groups)
      are association lists in insertion order;
    - the fields of a submitted event are JSON values: identifiers are
      strings or null, a type is a string or some other value, [data] is an
      object or some other value;
    - a method that catches its own exceptions returns the value of its
      [except] branch, and leaves the state as the statements before the
      exception made it. *)

From Stdlib Require Import ZArith QArith Qround Qpower Lqa Lia List String.
From stdpp Require Import base gmap strings list.
Import ListNotations.

Local Open Scope string_scope.
Local Open Scope list_scope.

(** ** Time *)

Definition minutes (m : Z) : Z := (m * 60000000)%Z.
Definition seconds (s : Z) : Z := (s * 1000000)%Z.

(** [datetime.min] (0001-01-01T00:00:00) and [datetime.max]
    (9999-12-31T23:59:59.999999). *)
Definition datetime_min : Z := (-62135596800000000)%Z.
Definition datetime_max : Z := 253402300799999999%Z.

(** [timedelta(minutes=m)] for an integer [m]; [None] is the
    [OverflowError] of a duration of more than 999999999 days. *)
Definition timedelta_minutes (m : Z) : option Z :=
  if (Z.abs (m / 1440) <=? 999999999)%Z then Some (minutes m) else None.

(** [current_time - timedelta(minutes=m)]; [None] is the [OverflowError]
    of the duration or of a difference outside the range of [datetime]. *)
Definition minutes_ago (current_time m : Z) : option Z :=
  match timedelta_minutes m with
  | Some delta =>
      let t := (current_time - delta)%Z in
      if (datetime_min <=? t)%Z && (t <=? datetime_max)%Z then Some t
      else None
  | None => None
  end.

(** ** Data model *)

(** The [data] of an event.  It is only ever read through
    [e.data.get('is_error', False)]: a dictionary is kept as the truth
    value of that entry; on any other value [.get] raises
    [AttributeError]. *)
Inductive EventData :=
  | DataDict (is_error_entry : bool)
  | DataOther.

(** [RealtimeEvent].  [event_type] is a string or, as [None], a value that
    is not a string and so equals none of the names it is compared with;
    [tz_aware] tells whether [timestamp] carries a UTC offset. *)
Record RealtimeEvent := {
  site_id : string;
  event_type : option string;
  timestamp : Z;
  tz_aware : bool;
  data : EventData;
  user_id : option string;
  session_id : option string
}.

(** [e.event_type == name] *)
Definition type_is (e : RealtimeEvent) (name : string) : bool :=
  match event_type e with
  | Some s => String.eqb s name
  | None => false
  end.

(** Python truthiness of an optional string: [None] and [''] are false. *)
Definition truthy (o : option string) : option string :=
  match o with
  | Some s => if String.eqb s EmptyString then None else Some s
  | None => None
  end.

(** [collections.deque(maxlen=n)]. *)
Record deque := {
  maxlen : nat;
  items : list RealtimeEvent
}.

(** [deque.append]: the element goes to the right end; when the length
    then exceeds [maxlen], the leftmost element is discarded. *)
Definition deque_append (d : deque) (e : RealtimeEvent) : deque :=
  let l := items d ++ [e] in
  {| maxlen := maxlen d;
     items := if (maxlen d <? length l)%nat then tail l else l |}.

Record StreamingWindow := {
  window_size : nat;
  events : deque;
  metrics : gmap string Q;
  last_update : Z;
  websocket_manager : option nat
}.

(** [stream.metrics.get(name, 0)] *)
Definition metrics_get (m : gmap string Q) (name : string) : Q :=
  default 0%Q (m !! name).

Inductive AlertSeverity := LOW | MEDIUM | HIGH | CRITICAL.

(** An entry of [alert_rules].  [threshold], [threshold_multiplier],
    [window_minutes] and [cooldown_minutes] are the keys the code tests
    with [in] or reads with [.get]. *)
Record AlertRule := {
  metric : string;
  threshold : option Q;
  threshold_multiplier : option Q;
  window_minutes : option Z;
  severity : AlertSeverity;
  cooldown_minutes : option Z
}.

Record AlertData := {
  alert_type : string;
  alert_severity : AlertSeverity;
  triggered_at : Z;
  metric_name : string;
  current_value : Q;
  threshold_value : Q
}.

(** The table [_setup_alert_rules] builds, in insertion order. *)
Definition alert_rules_table : list (string * AlertRule) :=
  [ ("traffic_spike",
     {| metric := "page_views_per_minute"; threshold := None;
        threshold_multiplier := Some 3.0%Q; window_minutes := Some 5%Z;
        severity := HIGH; cooldown_minutes := Some 30%Z |});
    ("traffic_drop",
     {| metric := "page_views_per_minute"; threshold := None;
        threshold_multiplier := Some 0.3%Q; window_minutes := Some 10%Z;
        severity := MEDIUM; cooldown_minutes := Some 15%Z |});
    ("high_bounce_rate",
     {| metric := "bounce_rate"; threshold := Some 0.8%Q;
        threshold_multiplier := None; window_minutes := Some 15%Z;
        severity := MEDIUM; cooldown_minutes := Some 30%Z |});
    ("conversion_drop",
     {| metric := "conversion_rate"; threshold := None;
        threshold_multiplier := Some 0.5%Q; window_minutes := Some 30%Z;
        severity := HIGH; cooldown_minutes := Some 60%Z |});
    ("server_error_spike",
     {| metric := "error_rate"; threshold := Some 0.05%Q;
        threshold_multiplier := None; window_minutes := Some 5%Z;
        severity := CRITICAL; cooldown_minutes := Some 10%Z |});
    ("unusual_user_behavior",
     {| metric := "unusual_sessions_rate"; threshold := Some 0.1%Q;
        threshold_multiplier := None; window_minutes := Some 20%Z;
        severity := MEDIUM; cooldown_minutes := Some 45%Z |}) ].

(** The service object.  [custom_thresholds] is the part of the Redis
    store written by [configure_thresholds]: per key, the expiry time and
    the stored thresholds. *)
Record Service := {
  active_streams : gmap string StreamingWindow;
  alert_rules : list (string * AlertRule);
  alert_cooldowns : gmap string Z;
  processing_queue : list RealtimeEvent;
  custom_thresholds : gmap string (Z * gmap string Q)
}.

(** [__init__]: no stream, no rule, no cooldown, an [asyncio.Queue()]
    without [maxsize], that is, unbounded. *)
Definition init_service : Service :=
  {| active_streams := ∅; alert_rules := []; alert_cooldowns := ∅;
     processing_queue := []; custom_thresholds := ∅ |}.

(** [_setup_alert_rules] *)
Definition _setup_alert_rules (s : Service) : Service :=
  {| active_streams := active_streams s;
     alert_rules := alert_rules_table;
     alert_cooldowns := alert_cooldowns s;
     processing_queue := processing_queue s;
     custom_thresholds := custom_thresholds s |}.

(** ** Session control *)

(** [start_realtime_analysis] *)
Definition start_realtime_analysis (s : Service) (site : string)
    (ws : nat) (now : Z) : Service :=
  let w :=
    match active_streams s !! site with
    | Some w => w
    | None =>
        {| window_size := 1000;
           events := {| maxlen := 1000; items := [] |};
           metrics := ∅;
           last_update := now;
           websocket_manager := None |}
    end in
  let w' :=
    {| window_size := window_size w; events := events w;
       metrics := metrics w; last_update := last_update w;
       websocket_manager := Some ws |} in
  {| active_streams := <[site := w']> (active_streams s);
     alert_rules := alert_rules s;
     alert_cooldowns := alert_cooldowns s;
     processing_queue := processing_queue s;
     custom_thresholds := custom_thresholds s |}.

(** [stop_realtime_analysis] *)
Definition stop_realtime_analysis (s : Service) (site : string) : Service :=
  {| active_streams := delete site (active_streams s);
     alert_rules := alert_rules s;
     alert_cooldowns := alert_cooldowns s;
     processing_queue := processing_queue s;
     custom_thresholds := custom_thresholds s |}.

(** ** Ingest *)

(** The ['type'] entry of a submitted event: absent, a string, or any
    other value ([null], a number, ...). *)
Inductive RawType :=
  | TypeAbsent
  | TypeStr (s : string)
  | TypeOther.

(** The ['timestamp'] entry of a submitted event: absent (the code
    substitutes the current time), a string [datetime.fromisoformat]
    parses to a time without a UTC offset, a string it parses to a time
    with one, or a value on which it raises. *)
Inductive RawTimestamp :=
  | TsAbsent
  | TsIso (t : Z)
  | TsIsoAware (t : Z)
  | TsMalformed.

(** A submitted event, a JSON object read with [event.get]: [None] is an
    absent ['data'] key, and an absent or null identifier. *)
Record RawEvent := {
  raw_type : RawType;
  raw_timestamp : RawTimestamp;
  raw_data : option EventData;
  raw_user_id : option string;
  raw_session_id : option string
}.

(** One iteration of the first loop of [process_realtime_data]; [None]
    is the exception raised by [datetime.fromisoformat]. *)
Definition make_event (site : string) (now : Z) (ev : RawEvent)
    : option RealtimeEvent :=
  match raw_timestamp ev with
  | TsMalformed => None
  | ts =>
      Some {| site_id := site;
              event_type :=
                match raw_type ev with
                | TypeAbsent => Some "unknown"
                | TypeStr s => Some s
                | TypeOther => None
                end;
              timestamp :=
                match ts with TsIso t | TsIsoAware t => t | _ => now end;
              tz_aware :=
                match ts with TsIsoAware _ => true | _ => false end;
              data := default (DataDict false) (raw_data ev);
              user_id := raw_user_id ev;
              session_id := raw_session_id ev |}
  end.

(** The whole first loop: it stops at the first exception. *)
Fixpoint make_events (site : string) (now : Z) (event_data : list RawEvent)
    : option (list RealtimeEvent) :=
  match event_data with
  | [] => Some []
  | ev :: rest =>
      match make_event site now ev with
      | None => None
      | Some e =>
          match make_events site now rest with
          | None => None
          | Some es => Some (e :: es)
          end
      end
  end.

Definition is_page_view (e : RealtimeEvent) : bool :=
  type_is e "page_view".

(** [len(set(xs))] *)
Definition count_distinct (xs : list string) : nat :=
  length (remove_dups xs).

Definition session_ids (es : list RealtimeEvent) : list string :=
  omap (fun e => truthy (session_id e)) es.

Definition user_ids (es : list RealtimeEvent) : list string :=
  omap (fun e => truthy (user_id e)) es.

Record InstantMetrics := {
  events_processed : nat;
  instant_unique_sessions : nat;
  instant_page_views : nat;
  instant_conversions : nat
}.

(** [_calculate_instant_metrics] *)
Definition _calculate_instant_metrics (es : list RealtimeEvent)
    : InstantMetrics :=
  {| events_processed := length es;
     instant_unique_sessions := count_distinct (session_ids es);
     instant_page_views := length (List.filter is_page_view es);
     instant_conversions :=
       length (List.filter (fun e =>
         type_is e "purchase" || type_is e "signup") es) |}.

Inductive AnalysisResult :=
  | AnomalyAnalysis (anomalies_detected normal_patterns : nat)
  | BehaviorAnalysis
  | StandardAnalysis (events_count : nat).

(** [_perform_analysis] *)
Definition _perform_analysis (es : list RealtimeEvent) (analysis_type : string)
    : AnalysisResult :=
  if String.eqb analysis_type "anomaly_detection" then
    AnomalyAnalysis 0 (length es)
  else if String.eqb analysis_type "user_behavior" then BehaviorAnalysis
  else StandardAnalysis (length es).

(** The dictionary [process_realtime_data] returns: the result, or
    [{"error": ...}] from its [except] branch. *)
Inductive IngestResult :=
  | IngestOk (processed_events : nat) (instant_metrics : InstantMetrics)
             (analysis_result : AnalysisResult)
  | IngestError.

(** [self.processing_queue.put(event)] on a queue without [maxsize]. *)
Definition queue_put (s : Service) (e : RealtimeEvent) : Service :=
  {| active_streams := active_streams s;
     alert_rules := alert_rules s;
     alert_cooldowns := alert_cooldowns s;
     processing_queue := processing_queue s ++ [e];
     custom_thresholds := custom_thresholds s |}.

(** [process_realtime_data] *)
Definition process_realtime_data (s : Service) (site : string)
    (event_data : list RawEvent) (analysis_type : string) (now : Z)
    : Service * IngestResult :=
  match make_events site now event_data with
  | None => (s, IngestError)
  | Some processed =>
      (fold_left queue_put processed s,
       IngestOk (length processed)
                (_calculate_instant_metrics processed)
                (_perform_analysis processed analysis_type))
  end.

(** ** Metric recomputation *)

(** [d[k].append(x)] on a [defaultdict(list)] kept in insertion order. *)
Fixpoint group_append {A} (k : string) (x : A) (g : list (string * list A))
    : list (string * list A) :=
  match g with
  | [] => [(k, [x])]
  | (k', xs) :: g' =>
      if String.eqb k k' then (k', xs ++ [x]) :: g'
      else (k', xs) :: group_append k x g'
  end.

(** The grouping loops: elements without a key are skipped. *)
Definition group_by {A} (key : A -> option string) (l : list A)
    : list (string * list A) :=
  fold_left (fun g x =>
               match key x with
               | Some k => group_append k x g
               | None => g
               end) l [].

Definition Qnat (n : nat) : Q := inject_Z (Z.of_nat n).

Definition is_conversion (e : RealtimeEvent) : bool :=
  type_is e "purchase" || type_is e "signup" || type_is e "conversion".

(** [e.event_type == 'error' or e.data.get('is_error', False)]: the
    second operand is evaluated when the first is false, and [None] is its
    [AttributeError] on a [data] that is not a dictionary. *)
Definition is_error (e : RealtimeEvent) : option bool :=
  if type_is e "error" then Some true
  else match data e with
       | DataDict is_error_entry => Some is_error_entry
       | DataOther => None
       end.

(** The events whose timestamp is after [bound]. *)
Definition events_after (bound : Z) (es : list RealtimeEvent)
    : list RealtimeEvent :=
  List.filter (fun e => (bound <? timestamp e)%Z) es.

(** [[e for e in es if e.timestamp > bound]] for a naive [bound]; [None]
    is the [TypeError] of comparing an offset-aware timestamp with it. *)
Definition later_than (bound : Z) (es : list RealtimeEvent)
    : option (list RealtimeEvent) :=
  if existsb tz_aware es then None else Some (events_after bound es).

(** The bounce-rate block: the entry is written only when there is at
    least one session. *)
Definition update_bounce_rate (recent : list RealtimeEvent)
    (m : gmap string Q) : gmap string Q :=
  let sessions_data := group_by (fun e => truthy (session_id e)) recent in
  let total_sessions := length sessions_data in
  if (0 <? total_sessions)%nat then
    let bounced_sessions :=
      length (List.filter (fun p => (length (snd p) =? 1)%nat) sessions_data) in
    <["bounce_rate" := (Qnat bounced_sessions / Qnat total_sessions)%Q]> m
  else m.

(** The statements of [_update_stream_metrics] that follow the selection
    of the recent events.  The error count is the last thing that can
    raise: when it does, the entries written before it stay and
    [error_rate] is not written. *)
Definition metrics_of_recent (recent_events : list RealtimeEvent)
    (m : gmap string Q) : gmap string Q :=
  let m1 :=
    <["active_users" := Qnat (count_distinct (user_ids recent_events))]>
    (<["unique_sessions" := Qnat (count_distinct (session_ids recent_events))]>
    (<["page_views_per_minute" :=
         Qnat (length (List.filter is_page_view recent_events))]>
    (<["events_per_minute" := Qnat (length recent_events)]> m))) in
  let m2 := update_bounce_rate recent_events m1 in
  let conversions := length (List.filter is_conversion recent_events) in
  let m3 :=
    <["conversion_rate" :=
        (Qnat conversions / Qnat (Nat.max (length recent_events) 1))%Q]> m2 in
  match mapM is_error recent_events with
  | Some flags =>
      let errors := length (List.filter id flags) in
      <["error_rate" :=
          (Qnat errors / Qnat (Nat.max (length recent_events) 1))%Q]> m3
  | None => m3
  end.

(** The metric dictionary after [_update_stream_metrics]: when the bound
    of the lookback interval or the selection of the recent events raises,
    nothing is written. *)
Definition updated_metrics (es : list RealtimeEvent) (m : gmap string Q)
    (now : Z) : gmap string Q :=
  match minutes_ago now 1 with
  | Some one_minute_ago =>
      match later_than one_minute_ago es with
      | Some recent_events => metrics_of_recent recent_events m
      | None => m
      end
  | None => m
  end.

Definition set_metrics (w : StreamingWindow) (m : gmap string Q)
    : StreamingWindow :=
  {| window_size := window_size w; events := events w; metrics := m;
     last_update := last_update w; websocket_manager := websocket_manager w |}.

(** [_update_stream_metrics] *)
Definition _update_stream_metrics (w : StreamingWindow) (now : Z)
    : StreamingWindow :=
  set_metrics w (updated_metrics (items (events w)) (metrics w) now).

(** ** Batch dispatch *)

Definition append_event (w : StreamingWindow) (e : RealtimeEvent)
    : StreamingWindow :=
  {| window_size := window_size w; events := deque_append (events w) e;
     metrics := metrics w; last_update := last_update w;
     websocket_manager := websocket_manager w |}.

Definition set_last_update (w : StreamingWindow) (now : Z) : StreamingWindow :=
  {| window_size := window_size w; events := events w; metrics := metrics w;
     last_update := now; websocket_manager := websocket_manager w |}.

(** The body of the per-site loop of [_process_events_batch]. *)
Definition process_site_events (now : Z)
    (streams : gmap string StreamingWindow)
    (group : string * list RealtimeEvent) : gmap string StreamingWindow :=
  match streams !! fst group with
  | Some stream =>
      let stream1 := fold_left append_event (snd group) stream in
      let stream2 := _update_stream_metrics stream1 now in
      <[fst group := set_last_update stream2 now]> streams
  | None => streams
  end.

Definition set_streams (s : Service) (st : gmap string StreamingWindow)
    : Service :=
  {| active_streams := st; alert_rules := alert_rules s;
     alert_cooldowns := alert_cooldowns s;
     processing_queue := processing_queue s;
     custom_thresholds := custom_thresholds s |}.

(** [_process_events_batch] *)
Definition _process_events_batch (s : Service)
    (events_batch : list RealtimeEvent) (now : Z) : Service :=
  let events_by_site := group_by (fun e => Some (site_id e)) events_batch in
  set_streams s
    (fold_left (process_site_events now) events_by_site (active_streams s)).

(** One iteration of [_main_processor]: an empty queue times out and the
    loop continues; otherwise the first event and up to
    [realtime_batch_size - 1] more are taken and processed. *)
Definition main_processor_step (realtime_batch_size : Z) (s : Service)
    (now : Z) : Service :=
  match processing_queue s with
  | [] => s
  | first_event :: rest =>
      let n := Z.to_nat (realtime_batch_size - 1) in
      let events_batch := first_event :: take n rest in
      let s' :=
        {| active_streams := active_streams s;
           alert_rules := alert_rules s;
           alert_cooldowns := alert_cooldowns s;
           processing_queue := drop n rest;
           custom_thresholds := custom_thresholds s |} in
      _process_events_batch s' events_batch now
  end.

(** ** Alert rule engine *)

(** [x < y] on numbers, as a boolean. *)
Definition Qlt_bool (x y : Q) : bool := negb (Qle_bool y x).

(** The branches of [_get_historical_average] on a non-empty selection.
    A zero [window_minutes] raises [ZeroDivisionError] in the page-view
    branch, which the method catches, returning 0. *)
Definition historical_average_of (relevant_events : list RealtimeEvent)
    (m : gmap string Q) (metric_name : string) (window_minutes : Z) : Q :=
  if String.eqb metric_name "page_views_per_minute" then
    if (window_minutes =? 0)%Z then 0%Q
    else (Qnat (length (List.filter is_page_view relevant_events))
          / inject_Z window_minutes)%Q
  else if String.eqb metric_name "error_rate" then
    let errors :=
      length (List.filter (fun e => type_is e "error") relevant_events) in
    (Qnat errors / Qnat (Nat.max (length relevant_events) 1))%Q
  else metrics_get m metric_name.

(** [_get_historical_average]: 0 when the start of the window or the
    selection of the events raises, and when no event is selected. *)
Definition _get_historical_average (stream : StreamingWindow)
    (metric_name : string) (window_minutes : Z) (now : Z) : Q :=
  match minutes_ago now window_minutes with
  | Some window_start =>
      match later_than window_start (items (events stream)) with
      | Some [] => 0%Q
      | Some relevant_events =>
          historical_average_of relevant_events (metrics stream)
            metric_name window_minutes
      | None => 0%Q
      end
  | None => 0%Q
  end.

(** [_check_alert_condition] *)
Definition _check_alert_condition (stream : StreamingWindow)
    (rule : AlertRule) (now : Z) : bool :=
  let current := metrics_get (metrics stream) (metric rule) in
  match threshold rule with
  | Some th => Qlt_bool th current
  | None =>
      match threshold_multiplier rule with
      | Some multiplier =>
          let historical_avg :=
            _get_historical_average stream (metric rule)
              (default 60%Z (window_minutes rule)) now in
          if Qlt_bool 0 historical_avg then
            if Qlt_bool 1 multiplier then
              Qlt_bool (historical_avg * multiplier) current
            else
              Qlt_bool current (historical_avg * multiplier)
          else false
      | None => false
      end
  end.

(** [_create_alert] *)
Definition _create_alert (rule_name : string) (rule : AlertRule)
    (stream : StreamingWindow) (now : Z) : AlertData :=
  {| alert_type := rule_name;
     alert_severity := severity rule;
     triggered_at := now;
     metric_name := metric rule;
     current_value := metrics_get (metrics stream) (metric rule);
     threshold_value := default 0%Q (threshold rule) |}.

(** [f"{site_id}:{rule_name}"] *)
Definition cooldown_key (site rule_name : string) : string :=
  String.append site (String.append ":" rule_name).

(** [cooldown_key in self.alert_cooldowns and
     current_time < self.alert_cooldowns[cooldown_key]] *)
Definition in_cooldown (cooldowns : gmap string Z) (key : string)
    (current_time : Z) : bool :=
  match cooldowns !! key with
  | Some next_eligible => (current_time <? next_eligible)%Z
  | None => false
  end.

(** The rule loop of [_check_alerts]: the cooldown map it leaves and the
    alerts it created and handed to [_send_alert], in order. *)
Fixpoint check_rules (site : string) (stream : StreamingWindow)
    (current_time : Z) (rules : list (string * AlertRule))
    (cooldowns : gmap string Z) : gmap string Z * list AlertData :=
  match rules with
  | [] => (cooldowns, [])
  | (rule_name, rule) :: rest =>
      let key := cooldown_key site rule_name in
      if in_cooldown cooldowns key current_time then
        check_rules site stream current_time rest cooldowns
      else if _check_alert_condition stream rule current_time then
        let alert := _create_alert rule_name rule stream current_time in
        let cooldowns' :=
          <[key := (current_time
                    + minutes (default 30%Z (cooldown_minutes rule)))%Z]>
            cooldowns in
        let '(cd, alerts) :=
          check_rules site stream current_time rest cooldowns' in
        (cd, alert :: alerts)
      else check_rules site stream current_time rest cooldowns
  end.

Definition set_cooldowns (s : Service) (cd : gmap string Z) : Service :=
  {| active_streams := active_streams s; alert_rules := alert_rules s;
     alert_cooldowns := cd; processing_queue := processing_queue s;
     custom_thresholds := custom_thresholds s |}.

(** [_check_alerts] *)
Definition _check_alerts (s : Service) (site : string)
    (stream : StreamingWindow) (now : Z) : Service * list AlertData :=
  let '(cd, alerts) :=
    check_rules site stream now (alert_rules s) (alert_cooldowns s) in
  (set_cooldowns s cd, alerts).

(** One iteration of the loop of [_alert_processor] over
    [self.active_streams.items()], for the entry of [site]. *)
Definition alert_processor_step (s : Service) (site : string) (now : Z)
    : Service * list AlertData :=
  match active_streams s !! site with
  | Some stream => _check_alerts s site stream now
  | None => (s, [])
  end.

(** ** Threshold configuration *)

(** [configure_thresholds]: [setex] of the key
    [custom_thresholds:<site_id>] with a lifetime of 86400 seconds. *)
Definition configure_thresholds (s : Service) (site : string)
    (thresholds : gmap string Q) (now : Z) : Service :=
  {| active_streams := active_streams s; alert_rules := alert_rules s;
     alert_cooldowns := alert_cooldowns s;
     processing_queue := processing_queue s;
     custom_thresholds :=
       <[String.append "custom_thresholds:" site :=
           ((now + seconds 86400)%Z, thresholds)]> (custom_thresholds s) |}.

(** The stored threshold of [site] for [metric_name], if one was
    configured and has not expired at [now]. *)
Definition stored_threshold (s : Service) (site metric_name : string)
    (now : Z) : option Q :=
  match custom_thresholds s !! String.append "custom_thresholds:" site with
  | Some (expiry, thresholds) =>
      if (now <? expiry)%Z then thresholds !! metric_name else None
  | None => None
  end.

(** ** Forecasts *)

Record TrafficPrediction := {
  next_5_minutes : Q;
  confidence : Q;
  trend : string
}.

(** *** Binary64 arithmetic *)

(** The nearest integer, ties to the even one. *)
Definition round_half_even (x : Q) : Z :=
  let f := Qfloor x in
  match (x - inject_Z f ?= 1 # 2)%Q with
  | Lt => f
  | Gt => (f + 1)%Z
  | Eq => if Z.even f then f else (f + 1)%Z
  end.

(** For a positive [x], the exponent [k] with [2 ^ k <= x < 2 ^ (k + 1)]. *)
Definition binade (x : Q) : Z :=
  let k := (Z.log2 (Qnum x) - Z.log2 (Z.pos (Qden x)))%Z in
  if Qle_bool (2 ^ k) x then k else (k - 1)%Z.

(** The binary64 number nearest to a non-negative [x] below [2 ^ 1024]
    (53 significant bits, exponents from -1074, ties to even). *)
Definition round_positive (x : Q) : Q :=
  let e := Z.max (binade x - 52) (-1074) in
  (inject_Z (round_half_even (x / 2 ^ e)) * 2 ^ e)%Q.

(** Rounding to binary64, of magnitudes below [2 ^ 1024]: the value of a
    float literal and of a float operation on the exact result. *)
Definition round_binary64 (x : Q) : Q :=
  match Qnum x with
  | Z0 => 0%Q
  | Zpos _ => round_positive x
  | Zneg _ => (- round_positive (- x))%Q
  end.

(** The literal [1.1]. *)
Definition double_1_1 : Q := round_binary64 1.1.

(** [np.mean] of a non-empty list of counts: the sum, exact in binary64,
    divided by the length. *)
Definition mean (xs : list nat) : Q :=
  round_binary64 (Qnat (fold_right Nat.add 0%nat xs) / Qnat (length xs)).

(** One element of [recent_page_views]:
    [len([e for e in stream.events if e.event_type == 'page_view' and
          e.timestamp > datetime.utcnow() - timedelta(minutes=i)])].
    The second operand of [and] is evaluated for page views only; [None]
    is the exception it raises. *)
Definition page_views_since (es : list RealtimeEvent) (now i : Z)
    : option nat :=
  match List.filter is_page_view es with
  | [] => Some 0%nat
  | page_views =>
      match minutes_ago now i with
      | Some bound => length <$> later_than bound page_views
      | None => None
      end
  end.

(** [_generate_predictions]: [None] is the empty dictionary, which is
    also the result of the [except] branch. *)
Definition _generate_predictions (stream : StreamingWindow) (now : Z)
    : option TrafficPrediction :=
  if (length (items (events stream)) <? 10)%nat then None
  else
    match mapM (page_views_since (items (events stream)) now)
               [1%Z; 2%Z; 3%Z; 4%Z; 5%Z] with
    | Some [] => None
    | Some recent_page_views =>
        Some {| next_5_minutes :=
                  round_binary64 (mean recent_page_views * double_1_1);
                confidence := 0.75%Q;
                trend := "stable" |}
    | None => None
    end.

(** ** The service as a transition system *)

(** What [initialize] leaves (the workers are the operations below). *)
Definition initialized_service : Service := _setup_alert_rules init_service.

(** The entry points of the transport layer and one iteration of each
    worker that changes the state, each with the clock value it reads. *)
Inductive Op :=
  | StartSession (site : string) (ws : nat) (now : Z)
  | StopSession (site : string)
  | Ingest (site : string) (event_data : list RawEvent)
           (analysis_type : string) (now : Z)
  | Dispatch (realtime_batch_size : Z) (now : Z)
  | CheckAlerts (site : string) (now : Z)
  | ConfigureThresholds (site : string) (thresholds : gmap string Q) (now : Z).

Definition apply_op (s : Service) (o : Op) : Service :=
  match o with
  | StartSession site ws now => start_realtime_analysis s site ws now
  | StopSession site => stop_realtime_analysis s site
  | Ingest site event_data analysis_type now =>
      fst (process_realtime_data s site event_data analysis_type now)
  | Dispatch n now => main_processor_step n s now
  | CheckAlerts site now => fst (alert_processor_step s site now)
  | ConfigureThresholds site thresholds now =>
      configure_thresholds s site thresholds now
  end.

Definition run (s : Service) (ops : list Op) : Service :=
  fold_left apply_op ops s.

(** The rule names of the alerts a cycle emitted. *)
Definition fired (r : Service * list AlertData) : list string :=
  map alert_type (snd r).

(** ** Invariants and sample inputs *)

Definition window_ok (w : StreamingWindow) : Prop :=
  maxlen (events w) = 1000%nat /\ (length (items (events w)) <= 1000)%nat.

Definition streams_ok (st : gmap string StreamingWindow) : Prop :=
  map_Forall (fun _ w => window_ok w) st.

Definition one_event : RawEvent :=
  {| raw_type := TypeStr "page_view"; raw_timestamp := TsIso 0;
     raw_data := Some (DataDict false); raw_user_id := Some "u1";
     raw_session_id := Some "s1" |}.

Definition in_unit_interval (q : Q) : Prop := (0 <= q /\ q <= 1)%Q.

Definition rates_bounded (m : gmap string Q) : Prop :=
  in_unit_interval (metrics_get m "bounce_rate") /\
  in_unit_interval (metrics_get m "conversion_rate") /\
  in_unit_interval (metrics_get m "error_rate").

Definition streams_rates_bounded (st : gmap string StreamingWindow) : Prop :=
  map_Forall (fun _ w => rates_bounded (metrics w)) st.


(** The cooldown a rule is given in [_check_alerts]. *)
Definition cooldown_duration (rule : AlertRule) : Z :=
  minutes (default 30%Z (cooldown_minutes rule)).

Definition cooldowns_nonneg (rules : list (string * AlertRule)) : Prop :=
  Forall (fun r => (0 <= default 30 (cooldown_minutes (snd r)))%Z) rules.

(** [k] is suppressed at least until [v]. *)
Definition eligible_from (cd : gmap string Z) (k : string) (v : Z) : Prop :=
  exists v', cd !! k = Some v' /\ (v <= v')%Z.

Definition fresh_window : StreamingWindow :=
  {| window_size := 1000;
     events := {| maxlen := 1000; items := [] |};
     metrics := ∅;
     last_update := 0;
     websocket_manager := None |}.

Definition session_event (sid : string) : RawEvent :=
  {| raw_type := TypeStr "click"; raw_timestamp := TsIso 0;
     raw_data := Some (DataDict false); raw_user_id := None;
     raw_session_id := Some sid |}.

(** Ten sessions, nine of them with a single event: after the dispatch
    the bounce rate of the window is 9/10. *)
Definition bouncing_service : Service :=
  run initialized_service
    [StartSession "site-1" 0 0%Z;
     Ingest "site-1"
       (map session_event
            ["s1"; "s2"; "s3"; "s4"; "s5"; "s6"; "s7"; "s8"; "s9"; "s10"; "s10"])
       "standard" 0%Z;
     Dispatch 100 0%Z].

Definition bouncing_window : StreamingWindow :=
  default fresh_window (active_streams bouncing_service !! "site-1").

Definition high_bounce_rate_rule : AlertRule :=
  {| metric := "bounce_rate"; threshold := Some 0.8%Q;
     threshold_multiplier := None; window_minutes := Some 15%Z;
     severity := MEDIUM; cooldown_minutes := Some 30%Z |}.

(** The baseline [_check_alert_condition] computes for a rule. *)
Definition baseline (stream : StreamingWindow) (rule : AlertRule) (now : Z)
    : Q :=
  _get_historical_average stream (metric rule)
    (default 60%Z (window_minutes rule)) now.

Definition page_view_at (t : Z) : RawEvent :=
  {| raw_type := TypeStr "page_view"; raw_timestamp := TsIso t;
     raw_data := Some (DataDict false); raw_user_id := Some "u1";
     raw_session_id := Some "s1" |}.

(** A session whose five page views were dispatched at time 0 and which
    received nothing afterwards. *)
Definition quiet_service : Service :=
  run initialized_service
    [StartSession "site-1" 0 0%Z;
     Ingest "site-1" (repeat (page_view_at 0) 5) "standard" 0%Z;
     Dispatch 100 0%Z].

Definition quiet_window : StreamingWindow :=
  default fresh_window (active_streams quiet_service !! "site-1").


Definition traffic_drop_rule : AlertRule :=
  {| metric := "page_views_per_minute"; threshold := None;
     threshold_multiplier := Some 0.3%Q; window_minutes := Some 10%Z;
     severity := MEDIUM; cooldown_minutes := Some 15%Z |}.

Definition malformed_event : RawEvent :=
  {| raw_type := TypeStr "page_view"; raw_timestamp := TsMalformed;
     raw_data := Some (DataDict false); raw_user_id := Some "u2";
     raw_session_id := Some "s2" |}.

(** An event that carries none of the optional fields. *)
Definition bare_event : RawEvent :=
  {| raw_type := TypeAbsent; raw_timestamp := TsAbsent; raw_data := None;
     raw_user_id := None; raw_session_id := None |}.

Definition malformed (ev : RawEvent) : Prop := raw_timestamp ev = TsMalformed.

(** A service whose queue already holds [n] events. *)
Definition backlog (n : nat) : Service :=
  {| active_streams := ∅; alert_rules := alert_rules_table;
     alert_cooldowns := ∅;
     processing_queue :=
       repeat {| site_id := "site-1"; event_type := Some "page_view";
                 timestamp := 0; tz_aware := false; data := DataDict false;
                 user_id := None; session_id := None |} n;
     custom_thresholds := ∅ |}.

(** [bouncing_service] after the tenant raised its bounce-rate threshold
    to 0.95. *)
Definition overridden_service : Service :=
  configure_thresholds bouncing_service "site-1"
    {["bounce_rate" := 0.95%Q]} 0.

(** One bounced session at time 0, then, five minutes later, an event
    that is already older than the lookback interval. *)
Definition stale_bounce_service : Service :=
  run initialized_service
    [StartSession "site-1" 0 0%Z;
     Ingest "site-1" [session_event "s1"] "standard" 0%Z;
     Dispatch 100 0%Z;
     Ingest "site-1" [session_event "s2"] "standard" (minutes 5);
     Dispatch 100 (minutes 5)].

Definition stale_bounce_window : StreamingWindow :=
  default fresh_window (active_streams stale_bounce_service !! "site-1").

(** A window with ten buffered events. *)
Definition ten_events_window : StreamingWindow :=
  default fresh_window
    (active_streams
       (run initialized_service
          [StartSession "site-1" 0 0%Z;
           Ingest "site-1" (repeat (page_view_at 0) 10) "standard" 0%Z;
           Dispatch 100 0%Z]) !! "site-1").

Definition one_event_ops : list Op :=
  [StartSession "site-1" 0 0%Z;
   Ingest "site-1" [one_event] "standard" 0%Z;
   Dispatch 100 0%Z].

Definition one_event_window : StreamingWindow :=
  default fresh_window
    (active_streams (run initialized_service one_event_ops) !! "site-1").

(** What [process_realtime_data] makes of a submitted event whose
    timestamp parses: the tenant of the call, every field that is present
    as submitted, ["unknown"] for an absent type, the time of the call for
    an absent timestamp, the empty dictionary for absent data. *)
Definition carries (site : string) (now : Z) (ev : RawEvent)
    (e : RealtimeEvent) : Prop :=
  site_id e = site /\
  event_type e = match raw_type ev with
                 | TypeAbsent => Some "unknown"
                 | TypeStr s => Some s
                 | TypeOther => None
                 end /\
  match raw_timestamp ev with
  | TsAbsent => timestamp e = now /\ tz_aware e = false
  | TsIso t => timestamp e = t /\ tz_aware e = false
  | TsIsoAware t => timestamp e = t /\ tz_aware e = true
  | TsMalformed => False
  end /\
  data e = match raw_data ev with
           | Some d => d
           | None => DataDict false
           end /\
  user_id e = raw_user_id ev /\
  session_id e = raw_session_id ev.

(** The service with another queue. *)
Definition set_queue (s : Service) (q : list RealtimeEvent) : Service :=
  {| active_streams := active_streams s; alert_rules := alert_rules s;
     alert_cooldowns := alert_cooldowns s; processing_queue := q;
     custom_thresholds := custom_thresholds s |}.

(** The clock is far enough from both ends of the range of [datetime]
    for a lookback of [m] minutes. *)
Definition clock_in_range (now m : Z) : Prop :=
  (datetime_min + minutes m <= now <= datetime_max)%Z.





(** A page view whose timestamp carries a UTC offset. *)
Definition aware_page_view : RawEvent :=
  {| raw_type := TypeStr "page_view"; raw_timestamp := TsIsoAware 0;
     raw_data := Some (DataDict false); raw_user_id := Some "u1";
     raw_session_id := Some "s1" |}.

(** A session that received ten such page views. *)
Definition aware_service : Service :=
  run initialized_service
    [StartSession "site-1" 0 0%Z;
     Ingest "site-1" (repeat aware_page_view 10) "standard" 0%Z;
     Dispatch 100 0%Z].

Definition aware_window : StreamingWindow :=
  default fresh_window (active_streams aware_service !! "site-1").

(** ** Further notions used by the properties of the rule engine *)

(** The character [:]. *)
Definition colon : Ascii.ascii := Ascii.ascii_of_nat 58.

(** Whether a string contains a colon, the separator of [cooldown_key]. *)
Fixpoint has_colon (s : string) : bool :=
  match s with
  | EmptyString => false
  | String c s' => Ascii.eqb c colon || has_colon s'
  end.

(** A rule that is evaluated on its multiplier: it has no ['threshold']
    key and a ['threshold_multiplier'] key. *)
Definition relative_rule (rule : AlertRule) : Prop :=
  threshold rule = None /\ is_Some (threshold_multiplier rule).

Definition conversion_drop_rule : AlertRule :=
  {| metric := "conversion_rate"; threshold := None;
     threshold_multiplier := Some 0.5%Q; window_minutes := Some 30%Z;
     severity := HIGH; cooldown_minutes := Some 60%Z |}.

Definition colon_free (rules : list (string * AlertRule)) : Prop :=
  Forall (fun r => has_colon (fst r) = false) rules.

Definition is_check (o : Op) : bool :=
  match o with
  | CheckAlerts _ _ => true
  | _ => false
  end.

(** [bouncing_service] with a second tenant that has an empty window. *)
Definition two_tenant_service : Service :=
  start_realtime_analysis bouncing_service "site-2" 1 0.

(** ** Further notions used by the properties of dispatch and metrics *)

(** The last [n] elements of a list. *)
Definition keep_last {A} (n : nat) (l : list A) : list A :=
  drop (length l - n) l.

(** [g[k]] on a grouping, the empty list for an absent key. *)
Fixpoint group_of {A} (k : string) (g : list (string * list A)) : list A :=
  match g with
  | [] => []
  | (k', xs) :: g' => if String.eqb k k' then xs else group_of k g'
  end.

(** Whether [key] gives [k]. *)
Definition has_key {A} (key : A -> option string) (k : string) (x : A)
    : bool :=
  match key x with
  | Some k' => String.eqb k' k
  | None => false
  end.

(** One step of the grouping loops. *)
Definition group_step {A} (key : A -> option string)
    (g : list (string * list A)) (x : A) : list (string * list A) :=
  match key x with
  | Some k => group_append k x g
  | None => g
  end.

(** The events of a batch that belong to [site], in batch order. *)
Definition events_of (site : string) (batch : list RealtimeEvent)
    : list RealtimeEvent :=
  List.filter (fun e => String.eqb (site_id e) site) batch.

(** What [_process_events_batch] makes of a window that receives the
    events [xs]. *)
Definition process_window (now : Z) (xs : list RealtimeEvent)
    (w : StreamingWindow) : StreamingWindow :=
  set_last_update (_update_stream_metrics (fold_left append_event xs w) now)
                  now.

Definition is_session_op (o : Op) : bool :=
  match o with
  | StartSession _ _ _ | StopSession _ => true
  | _ => false
  end.

Definition started_service : Service :=
  start_realtime_analysis initialized_service "site-1" 0 0.

Definition started_window : StreamingWindow :=
  default fresh_window (active_streams started_service !! "site-1").

Definition event_of (site ty : string) (t : Z) : RealtimeEvent :=
  {| site_id := site; event_type := Some ty; timestamp := t;
     tz_aware := false; data := DataDict false;
     user_id := None; session_id := None |}.

(** A batch that mixes two tenants. *)
Definition mixed_batch : list RealtimeEvent :=
  [event_of "site-1" "page_view" 1; event_of "site-2" "click" 2;
   event_of "site-1" "purchase" 3].



(** The count metrics of a snapshot are consistent with each other and
    with the capacity of the window. *)
Definition counts_ok (m : gmap string Q) : Prop :=
  (0 <= metrics_get m "page_views_per_minute")%Q /\
  (metrics_get m "page_views_per_minute"
   <= metrics_get m "events_per_minute")%Q /\
  (metrics_get m "unique_sessions" <= metrics_get m "events_per_minute")%Q /\
  (metrics_get m "active_users" <= metrics_get m "events_per_minute")%Q /\
  (metrics_get m "events_per_minute" <= 1000)%Q.

Definition window_counts_ok (w : StreamingWindow) : Prop :=
  window_ok w /\ counts_ok (metrics w).

(** The operations that lead to [bouncing_service]. *)
Definition bouncing_ops : list Op :=
  [StartSession "site-1" 0 0%Z;
   Ingest "site-1"
     (map session_event
          ["s1"; "s2"; "s3"; "s4"; "s5"; "s6"; "s7"; "s8"; "s9"; "s10"; "s10"])
     "standard" 0%Z;
   Dispatch 100 0%Z].

(** ** Metric aggregation *)

(** [int(x)]: truncation toward zero. *)
Definition py_int (q : Q) : Z := Z.quot (Qnum q) (Z.pos (Qden q)).

(** [RealtimeMetrics] of [models/schemas.py]. *)
Record RealtimeMetrics := {
  rm_timestamp : Z;
  rm_active_users : Z;
  rm_page_views : Z;
  rm_conversion_rate : Q;
  rm_bounce_rate : Q;
  rm_avg_session_duration : Q;
  rm_top_pages : list (string * Z);
  rm_traffic_sources : list (string * Z)
}.

(** The constraint [ge=0.0, le=1.0] the schema puts on both rates. *)
Definition valid_rate (q : Q) : bool := Qle_bool 0 q && Qle_bool q 1.

(** [_aggregate_metrics]: the validation error of the model constructor is
    caught and the method returns [None]. *)
Definition _aggregate_metrics (stream : StreamingWindow) (now : Z)
    : option RealtimeMetrics :=
  let conversion_rate := metrics_get (metrics stream) "conversion_rate" in
  let bounce_rate := metrics_get (metrics stream) "bounce_rate" in
  if valid_rate conversion_rate && valid_rate bounce_rate then
    Some {| rm_timestamp := now;
            rm_active_users :=
              py_int (metrics_get (metrics stream) "active_users");
            rm_page_views :=
              py_int (metrics_get (metrics stream) "page_views_per_minute");
            rm_conversion_rate := conversion_rate;
            rm_bounce_rate := bounce_rate;
            rm_avg_session_duration := 180%Q;
            rm_top_pages := [("/", 50%Z)];
            rm_traffic_sources :=
              [("direct", 60%Z); ("search", 30%Z); ("social", 10%Z)] |}
  else None.

(** Whether an operation starts a session of [site]. *)
Definition starts (site : string) (o : Op) : bool :=
  match o with
  | StartSession site' _ _ => String.eqb site' site
  | _ => false
  end.

(** * The websocket manager

    [utils/websocket_manager.py] ([WebSocketManager]), the sink the
    processor hands its messages to.  A websocket is a handle ([nat]); a
    [ConnectionInfo] object carries the identity [id()] gives it, so that
    equality of records is identity of objects. *)

Module WebSocketManager.

Record ConnectionInfo := {
  conn_id : nat;
  websocket : nat;
  site_id : string;
  connected_at : Z;
  last_ping : Z;
  subscriptions : list string
}.

#[global] Instance ConnectionInfo_eq_dec : EqDecision ConnectionInfo.
Proof. solve_decision. Defined.

Record Stats := {
  total_connections : Z;
  active_sites : Z;
  messages_sent : Z;
  messages_failed : Z
}.

Record Manager := {
  connections : gmap string (list ConnectionInfo);
  connection_map : gmap nat ConnectionInfo;
  stats : Stats;
  next_id : nat
}.

(** [__init__] *)
Definition init : Manager :=
  {| connections := ∅; connection_map := ∅;
     stats := {| total_connections := 0; active_sites := 0;
                 messages_sent := 0; messages_failed := 0 |};
     next_id := 0 |}.

(** [self.connections[site_id] = l] followed by
    [if not self.connections[site_id]: del self.connections[site_id]]. *)
Definition store_or_drop (site : string) (l : list ConnectionInfo)
    (conns : gmap string (list ConnectionInfo))
    : gmap string (list ConnectionInfo) :=
  match l with
  | [] => delete site conns
  | _ => <[site := l]> conns
  end.

(** [connect].  [accepted] is whether [websocket.accept()] returns; when
    it raises, the exception leaves the method ([None]) before anything is
    registered. *)
Definition connect (m : Manager) (ws : nat) (site : string) (now : Z)
    (accepted : bool) : option Manager :=
  if accepted then
    let info :=
      {| conn_id := next_id m; websocket := ws; site_id := site;
         connected_at := now; last_ping := now; subscriptions := [] |} in
    let conns :=
      <[site := default [] (connections m !! site) ++ [info]]>
        (connections m) in
    Some {| connections := conns;
            connection_map := <[ws := info]> (connection_map m);
            stats :=
              {| total_connections := (total_connections (stats m) + 1)%Z;
                 active_sites := Z.of_nat (size conns);
                 messages_sent := messages_sent (stats m);
                 messages_failed := messages_failed (stats m) |};
            next_id := S (next_id m) |}
  else None.

(** [disconnect] *)
Definition disconnect (m : Manager) (ws : nat) (site : string) : Manager :=
  match connection_map m !! ws with
  | None => m
  | Some _ =>
      let conns :=
        match connections m !! site with
        | Some l =>
            store_or_drop site
              (List.filter (fun c => negb (Nat.eqb (websocket c) ws)) l)
              (connections m)
        | None => connections m
        end in
      {| connections := conns;
         connection_map := delete ws (connection_map m);
         stats :=
           {| total_connections :=
                Z.max 0 (total_connections (stats m) - 1);
              active_sites := Z.of_nat (size conns);
              messages_sent := messages_sent (stats m);
              messages_failed := messages_failed (stats m) |};
         next_id := next_id m |}
  end.

(** [_remove_failed_connection] *)
Definition _remove_failed_connection (m : Manager)
    (connection : ConnectionInfo) : Manager :=
  let conns :=
    match connections m !! site_id connection with
    | Some l =>
        store_or_drop (site_id connection)
          (List.filter (fun c => bool_decide (c <> connection)) l)
          (connections m)
    | None => connections m
    end in
  {| connections := conns;
     connection_map := delete (websocket connection) (connection_map m);
     stats :=
       {| total_connections := Z.max 0 (total_connections (stats m) - 1);
          active_sites := Z.of_nat (size conns);
          messages_sent := messages_sent (stats m);
          messages_failed := messages_failed (stats m) |};
     next_id := next_id m |}.

(** [send_to_site].  [delivers ws] is whether sending on the websocket
    [ws] succeeds ([_send_to_connection_safe] returns [True]). *)
Definition send_to_site (m : Manager) (site : string)
    (delivers : nat -> bool) : Manager * Z :=
  match connections m !! site with
  | None => (m, 0%Z)
  | Some l =>
      let sent := List.filter (fun c => delivers (websocket c)) l in
      let failed_connections :=
        List.filter (fun c => negb (delivers (websocket c))) l in
      let sent_count := Z.of_nat (length sent) in
      let m1 := fold_left _remove_failed_connection failed_connections m in
      ({| connections := connections m1;
          connection_map := connection_map m1;
          stats :=
            {| total_connections := total_connections (stats m1);
               active_sites := active_sites (stats m1);
               messages_sent := (messages_sent (stats m1) + sent_count)%Z;
               messages_failed :=
                 (messages_failed (stats m1)
                  + Z.of_nat (length failed_connections))%Z |};
          next_id := next_id m1 |},
       sent_count)
  end.

(** [has_connections] *)
Definition has_connections (m : Manager) (site : string) : bool :=
  match connections m !! site with
  | Some l => (0 <? length l)%nat
  | None => false
  end.

(** [get_connection_count]: an absent or empty [site_id] asks for the
    total. *)
Definition get_connection_count (m : Manager) (site : option string) : Z :=
  match truthy site with
  | Some s => Z.of_nat (length (default [] (connections m !! s)))
  | None => total_connections (stats m)
  end.

(** The calls that change the manager. *)
Inductive Call :=
  | Connect (ws : nat) (site : string) (now : Z) (accepted : bool)
  | Disconnect (ws : nat) (site : string)
  | SendToSite (site : string) (delivers : nat -> bool).

Definition apply_call (m : Manager) (c : Call) : Manager :=
  match c with
  | Connect ws site now accepted => default m (connect m ws site now accepted)
  | Disconnect ws site => disconnect m ws site
  | SendToSite site delivers => fst (send_to_site m site delivers)
  end.

Definition run_calls (m : Manager) (cs : list Call) : Manager :=
  fold_left apply_call cs m.

(** A list that may be registered for [site]. *)
Definition listed (site : string) (l : list ConnectionInfo) : Prop :=
  l <> [] /\ Forall (fun c => site_id c = site) l.

(** The entry of a site whose list became [l]. *)
Definition entry (l : list ConnectionInfo) : option (list ConnectionInfo) :=
  match l with
  | [] => None
  | _ => Some l
  end.

(** Every registered list is non-empty and holds connections of its own
    site; the statistics count the sites. *)
Definition consistent (m : Manager) : Prop :=
  map_Forall (fun site l => l <> [] /\ Forall (fun c => site_id c = site) l)
             (connections m) /\
  active_sites (stats m) = Z.of_nat (size (connections m)) /\
  (0 <= total_connections (stats m))%Z.

End WebSocketManager.

(** Two connections of one site, then one more of another. *)
Definition two_connections : WebSocketManager.Manager :=
  WebSocketManager.run_calls WebSocketManager.init
    [WebSocketManager.Connect 1 "site-1" 0 true;
     WebSocketManager.Connect 2 "site-1" 1 true;
     WebSocketManager.Connect 3 "site-2" 2 true].

Definition two_connections_list : list WebSocketManager.ConnectionInfo :=
  default [] (WebSocketManager.connections two_connections !! "site-1").
(** * Properties *)

(** Closes a decidable goal on concrete data by evaluating its decision
    procedure. *)
Ltac decide_by_compute := apply (bool_decide_unpack _); vm_compute; exact I.

(** ** Bounded windows *)

Lemma deque_append_maxlen d e : maxlen (deque_append d e) = maxlen d.
Proof. reflexivity. Qed.

Lemma deque_append_length d e :
  (length (items d) <= maxlen d)%nat ->
  (length (items (deque_append d e)) <= maxlen d)%nat.
Proof.
  intros Hle. unfold deque_append; simpl.
  destruct (Nat.ltb_spec (maxlen d) (length (items d ++ [e]))) as [Hlt | Hge].
  - destruct (items d ++ [e]) as [| x l] eqn:El; simpl in *; [lia |].
    assert (Hlen : length (items d ++ [e]) = S (length l)) by (rewrite El; reflexivity).
    rewrite length_app in Hlen; simpl in Hlen. lia.
  - exact Hge.
Qed.

Lemma append_event_ok w e : window_ok w -> window_ok (append_event w e).
Proof.
  intros [Hm Hl]. split; simpl; [exact Hm |].
  rewrite <- Hm. apply deque_append_length. lia.
Qed.

Lemma append_events_ok es : forall w,
  window_ok w -> window_ok (fold_left append_event es w).
Proof.
  induction es as [| e es IH]; intros w Hw; simpl; [exact Hw |].
  apply IH, append_event_ok, Hw.
Qed.

Lemma process_site_events_ok now st g :
  streams_ok st -> streams_ok (process_site_events now st g).
Proof.
  intros Hst. unfold process_site_events.
  destruct (st !! g.1) as [w |] eqn:Ew; [| exact Hst].
  apply map_Forall_insert_2; [| exact Hst].
  exact (append_events_ok g.2 w (Hst _ _ Ew)).
Qed.

Lemma process_groups_ok now gs : forall st,
  streams_ok st -> streams_ok (fold_left (process_site_events now) gs st).
Proof.
  induction gs as [| g gs IH]; intros st Hst; simpl; [exact Hst |].
  apply IH, process_site_events_ok, Hst.
Qed.

Lemma queue_put_streams es : forall s,
  active_streams (fold_left queue_put es s) = active_streams s.
Proof.
  induction es as [| e es IH]; intros s; simpl; [reflexivity |].
  rewrite IH. reflexivity.
Qed.

Lemma check_alerts_streams s site stream now :
  active_streams (fst (_check_alerts s site stream now)) = active_streams s.
Proof.
  unfold _check_alerts.
  destruct (check_rules site stream now (alert_rules s) (alert_cooldowns s)).
  reflexivity.
Qed.

Lemma apply_op_ok s o :
  streams_ok (active_streams s) -> streams_ok (active_streams (apply_op s o)).
Proof.
  intros Hs. destruct o as [site ws now | site | site evs ty now | n now
                           | site now | site th now]; simpl.
  - apply map_Forall_insert_2; [| exact Hs].
    destruct (active_streams s !! site) as [w |] eqn:Ew.
    + exact (Hs _ _ Ew).
    + split; simpl; lia.
  - apply map_Forall_delete, Hs.
  - unfold process_realtime_data.
    destruct (make_events site now evs); simpl; [| exact Hs].
    rewrite queue_put_streams. exact Hs.
  - unfold main_processor_step.
    destruct (processing_queue s); [exact Hs |].
    apply process_groups_ok. exact Hs.
  - unfold alert_processor_step.
    destruct (active_streams s !! site); [| exact Hs].
    rewrite check_alerts_streams. exact Hs.
  - exact Hs.
Qed.

Lemma run_ok ops : forall s,
  streams_ok (active_streams s) -> streams_ok (active_streams (run s ops)).
Proof.
  induction ops as [| o ops IH]; intros s Hs; simpl; [exact Hs |].
  apply IH, apply_op_ok, Hs.
Qed.

(** C3 (bounded window).  After any sequence of session starts and
    stops, ingests, batch dispatches, alert checks and threshold
    configurations, every tenant's window holds at most 1000 events, and an
    append to a window that is full drops its oldest event. *)
Theorem bounded_window (ops : list Op) (site : string) (w : StreamingWindow) :
  active_streams (run initialized_service ops) !! site = Some w ->
  (length (items (events w)) <= 1000)%nat /\
  forall e, items (events (append_event w e)) =
            if (length (items (events w)) <? 1000)%nat
            then items (events w) ++ [e]
            else tail (items (events w)) ++ [e].
Proof.
  intros Hw.
  assert (Hok : window_ok w).
  { refine (run_ok ops initialized_service _ site w Hw).
    apply map_Forall_empty. }
  destruct Hok as [Hm Hl]. split; [exact Hl |].
  intros e. simpl. rewrite Hm, length_app. simpl.
  destruct (Nat.ltb_spec (length (items (events w))) 1000) as [Hlt | Hge].
  - destruct (Nat.ltb_spec 1000 (length (items (events w)) + 1)); [lia | reflexivity].
  - destruct (Nat.ltb_spec 1000 (length (items (events w)) + 1)); [| lia].
    destruct (items (events w)); simpl in *; [lia | reflexivity].
Qed.

Lemma one_event_window_lookup :
  active_streams (run initialized_service one_event_ops) !! "site-1"
  = Some one_event_window.
Proof. vm_compute. reflexivity. Qed.

Lemma bounded_window_witness :
  active_streams (run initialized_service one_event_ops) !! "site-1"
  = Some one_event_window /\
  (length (items (events one_event_window)) <= 1000)%nat.
Proof.
  split; [exact one_event_window_lookup |].
  exact (proj1 (bounded_window one_event_ops "site-1" one_event_window
                  one_event_window_lookup)).
Defined.

(** ** Rate bounds *)

Lemma ratio_in_unit_interval (a b : nat) :
  (a <= b)%nat -> (0 < b)%nat -> in_unit_interval (Qnat a / Qnat b).
Proof.
  intros Hab Hb. unfold in_unit_interval, Qnat.
  assert (Hb' : (0 < inject_Z (Z.of_nat b))%Q).
  { change 0%Q with (inject_Z 0). rewrite <- Zlt_Qlt. lia. }
  split.
  - apply Qle_shift_div_l; [exact Hb' |].
    rewrite Qmult_0_l. change 0%Q with (inject_Z 0). rewrite <- Zle_Qle. lia.
  - apply Qle_shift_div_r; [exact Hb' |].
    rewrite Qmult_1_l. rewrite <- Zle_Qle. lia.
Qed.

Lemma filter_length_bound {A} (f : A -> bool) (l : list A) :
  (length (List.filter f l) <= length l)%nat.
Proof.
  induction l as [| x l IH]; simpl; [lia |].
  destruct (f x); simpl; lia.
Qed.

Lemma ratio_of_filter {A} (f : A -> bool) (l : list A) :
  in_unit_interval
    (Qnat (length (List.filter f l)) / Qnat (Nat.max (length l) 1)).
Proof.
  apply ratio_in_unit_interval; [| lia].
  pose proof (filter_length_bound f l). lia.
Qed.

Lemma update_bounce_rate_bounded recent m :
  in_unit_interval (metrics_get m "bounce_rate") ->
  in_unit_interval (metrics_get (update_bounce_rate recent m) "bounce_rate").
Proof.
  intros Hm. unfold update_bounce_rate.
  destruct (Nat.ltb_spec 0
              (length (group_by (fun e => truthy (session_id e)) recent)))
    as [Hpos | _]; [| exact Hm].
  unfold metrics_get. rewrite lookup_insert_eq. simpl.
  apply ratio_in_unit_interval; [apply filter_length_bound | exact Hpos].
Qed.

Lemma metrics_get_insert_ne (m : gmap string Q) k k' v :
  k <> k' -> metrics_get (<[k := v]> m) k' = metrics_get m k'.
Proof. intros Hne. unfold metrics_get. rewrite lookup_insert_ne; done. Qed.

Lemma metrics_get_insert_eq (m : gmap string Q) k v :
  metrics_get (<[k := v]> m) k = v.
Proof. unfold metrics_get. rewrite lookup_insert_eq. reflexivity. Qed.

Lemma update_bounce_rate_other recent m k :
  k <> "bounce_rate" ->
  metrics_get (update_bounce_rate recent m) k = metrics_get m k.
Proof.
  intros Hne. unfold update_bounce_rate.
  destruct (0 <? _)%nat; [| reflexivity].
  apply metrics_get_insert_ne. congruence.
Qed.

Lemma minutes_ago_some now m t :
  minutes_ago now m = Some t -> t = (now - minutes m)%Z.
Proof.
  unfold minutes_ago, timedelta_minutes.
  destruct (Z.abs (m / 1440) <=? 999999999)%Z; [| discriminate].
  destruct ((datetime_min <=? now - minutes m)%Z
            && (now - minutes m <=? datetime_max)%Z); [| discriminate].
  intros H. inversion H. reflexivity.
Qed.

Lemma minutes_ago_in_range now m :
  (0 <= m <= 1440)%Z -> clock_in_range now m ->
  minutes_ago now m = Some (now - minutes m)%Z.
Proof.
  intros Hm [Hlo Hhi]. unfold minutes_ago, timedelta_minutes.
  replace (Z.abs (m / 1440) <=? 999999999)%Z with true.
  - replace ((datetime_min <=? now - minutes m)%Z
             && (now - minutes m <=? datetime_max)%Z) with true;
      [reflexivity |].
    symmetry. apply andb_true_iff. unfold minutes in *.
    split; apply Z.leb_le; lia.
  - symmetry. apply Z.leb_le.
    assert (0 <= m / 1440 <= 1)%Z; [| lia].
    split; [apply Z.div_pos; lia |].
    apply Z.div_le_upper_bound; lia.
Qed.

(** The recomputation when nothing raises before the recent events are
    selected. *)
Lemma updated_metrics_recent es m now :
  clock_in_range now 1 -> existsb tz_aware es = false ->
  updated_metrics es m now
  = metrics_of_recent (events_after (now - minutes 1) es) m.
Proof.
  intros Hclock Hnaive. unfold updated_metrics.
  rewrite (minutes_ago_in_range now 1) by (lia || exact Hclock).
  unfold later_than. rewrite Hnaive. reflexivity.
Qed.

Lemma later_than_some bound es recent :
  later_than bound es = Some recent ->
  existsb tz_aware es = false /\ recent = events_after bound es.
Proof.
  unfold later_than. destruct (existsb tz_aware es); [discriminate |].
  intros H. inversion H. split; reflexivity.
Qed.

Lemma metrics_of_recent_bounded recent m :
  rates_bounded m -> rates_bounded (metrics_of_recent recent m).
Proof.
  intros (Hb & Hc & He). unfold metrics_of_recent.
  assert (Hb' : forall m',
    metrics_get m' "bounce_rate" = metrics_get m "bounce_rate" ->
    in_unit_interval (metrics_get (update_bounce_rate recent m') "bounce_rate")).
  { intros m' Hm'. apply update_bounce_rate_bounded. rewrite Hm'. exact Hb. }
  destruct (mapM is_error recent) as [flags |] eqn:Ef.
  - split; [| split].
    + rewrite !(metrics_get_insert_ne _ _ "bounce_rate") by discriminate.
      apply Hb'.
      rewrite !(metrics_get_insert_ne _ _ "bounce_rate") by discriminate.
      reflexivity.
    + rewrite (metrics_get_insert_ne _ "error_rate") by discriminate.
      rewrite metrics_get_insert_eq. apply ratio_of_filter.
    + rewrite metrics_get_insert_eq.
      apply ratio_in_unit_interval; [| lia].
      pose proof (filter_length_bound id flags).
      apply length_mapM in Ef. lia.
  - split; [| split].
    + rewrite !(metrics_get_insert_ne _ _ "bounce_rate") by discriminate.
      apply Hb'.
      rewrite !(metrics_get_insert_ne _ _ "bounce_rate") by discriminate.
      reflexivity.
    + rewrite metrics_get_insert_eq. apply ratio_of_filter.
    + rewrite (metrics_get_insert_ne _ "conversion_rate") by discriminate.
      rewrite update_bounce_rate_other by discriminate.
      rewrite !(metrics_get_insert_ne _ _ "error_rate") by discriminate.
      exact He.
Qed.

Lemma updated_metrics_bounded es m now :
  rates_bounded m -> rates_bounded (updated_metrics es m now).
Proof.
  intros Hm. unfold updated_metrics.
  destruct (minutes_ago now 1) as [bound |]; [| exact Hm].
  destruct (later_than bound es) as [recent |]; [| exact Hm].
  apply metrics_of_recent_bounded, Hm.
Qed.

Lemma metrics_of_recent_counts recent m :
  metrics_get (metrics_of_recent recent m) "events_per_minute"
  = Qnat (length recent) /\
  metrics_get (metrics_of_recent recent m) "page_views_per_minute"
  = Qnat (length (List.filter is_page_view recent)) /\
  metrics_get (metrics_of_recent recent m) "unique_sessions"
  = Qnat (count_distinct (session_ids recent)) /\
  metrics_get (metrics_of_recent recent m) "active_users"
  = Qnat (count_distinct (user_ids recent)).
Proof.
  unfold metrics_of_recent.
  destruct (mapM is_error recent);
    repeat split;
    rewrite ?(metrics_get_insert_ne _ "error_rate") by discriminate;
    rewrite !(metrics_get_insert_ne _ "conversion_rate") by discriminate;
    rewrite update_bounce_rate_other by discriminate;
    rewrite ?(metrics_get_insert_ne _ "active_users") by discriminate;
    rewrite ?(metrics_get_insert_ne _ "unique_sessions") by discriminate;
    rewrite ?(metrics_get_insert_ne _ "page_views_per_minute") by discriminate;
    apply metrics_get_insert_eq.
Qed.

Lemma fresh_metrics_bounded : rates_bounded ∅.
Proof. repeat split; vm_compute; discriminate. Qed.

Lemma append_events_metrics es : forall w,
  metrics (fold_left append_event es w) = metrics w.
Proof.
  induction es as [| e es IH]; intros w; simpl; [reflexivity |].
  rewrite IH. reflexivity.
Qed.

Lemma process_site_events_rates now st g :
  streams_rates_bounded st ->
  streams_rates_bounded (process_site_events now st g).
Proof.
  intros Hst. unfold process_site_events.
  destruct (st !! g.1) as [w |] eqn:Ew; [| exact Hst].
  apply map_Forall_insert_2; [| exact Hst]. simpl.
  apply updated_metrics_bounded.
  rewrite append_events_metrics. apply (Hst _ _ Ew).
Qed.

Lemma process_groups_rates now gs : forall st,
  streams_rates_bounded st ->
  streams_rates_bounded (fold_left (process_site_events now) gs st).
Proof.
  induction gs as [| g gs IH]; intros st Hst; simpl; [exact Hst |].
  apply IH, process_site_events_rates, Hst.
Qed.

Lemma apply_op_rates s o :
  streams_rates_bounded (active_streams s) ->
  streams_rates_bounded (active_streams (apply_op s o)).
Proof.
  intros Hs. destruct o as [site ws now | site | site evs ty now | n now
                           | site now | site th now]; simpl.
  - apply map_Forall_insert_2; [| exact Hs]. simpl.
    destruct (active_streams s !! site) as [w |] eqn:Ew.
    + exact (Hs _ _ Ew).
    + apply fresh_metrics_bounded.
  - apply map_Forall_delete, Hs.
  - unfold process_realtime_data.
    destruct (make_events site now evs); simpl; [| exact Hs].
    rewrite queue_put_streams. exact Hs.
  - unfold main_processor_step.
    destruct (processing_queue s); [exact Hs |].
    apply process_groups_rates. exact Hs.
  - unfold alert_processor_step.
    destruct (active_streams s !! site); [| exact Hs].
    rewrite check_alerts_streams. exact Hs.
  - exact Hs.
Qed.

Lemma run_rates ops : forall s,
  streams_rates_bounded (active_streams s) ->
  streams_rates_bounded (active_streams (run s ops)).
Proof.
  induction ops as [| o ops IH]; intros s Hs; simpl; [exact Hs |].
  apply IH, apply_op_rates, Hs.
Qed.

(** C4 (rate bounds).  After any sequence of operations, hence after any
    number of metric recomputations over any events, the metrics
    [bounce_rate], [conversion_rate] and [error_rate] of every window lie
    in the closed interval from 0 to 1. *)
Theorem rate_bounds (ops : list Op) (site : string) (w : StreamingWindow) :
  active_streams (run initialized_service ops) !! site = Some w ->
  (0 <= metrics_get (metrics w) "bounce_rate" <= 1)%Q /\
  (0 <= metrics_get (metrics w) "conversion_rate" <= 1)%Q /\
  (0 <= metrics_get (metrics w) "error_rate" <= 1)%Q.
Proof.
  intros Hw.
  refine (run_rates ops initialized_service _ site w Hw).
  apply map_Forall_empty.
Qed.

Lemma rate_bounds_witness :
  active_streams (run initialized_service one_event_ops) !! "site-1"
  = Some one_event_window /\
  (0 <= metrics_get (metrics one_event_window) "bounce_rate" <= 1)%Q.
Proof.
  split; [exact one_event_window_lookup |].
  exact (proj1 (rate_bounds one_event_ops "site-1" one_event_window
                  one_event_window_lookup)).
Defined.

(** ** Cooldowns *)

Section CheckRules.
Variables (site : string) (stream : StreamingWindow) (now : Z).

(** A cooldown entry never moves backwards while rules are checked. *)
Lemma check_rules_eligible_from rules : forall cd k v,
  cooldowns_nonneg rules ->
  eligible_from cd k v ->
  eligible_from (fst (check_rules site stream now rules cd)) k v.
Proof.
  induction rules as [| [name rule] rules IH]; intros cd k v Hnn Hk;
    simpl; [exact Hk |].
  inversion Hnn as [| ? ? Hr Hrest]; subst; simpl in Hr.
  destruct (in_cooldown cd (cooldown_key site name) now) eqn:Ecd;
    [apply IH; assumption |].
  destruct (_check_alert_condition stream rule now);
    [| apply IH; assumption].
  destruct (check_rules site stream now rules _) as [cd' alerts] eqn:Erec.
  simpl. change cd' with (fst (cd', alerts)). rewrite <- Erec.
  apply IH; [assumption |].
  destruct Hk as (v' & Hv' & Hle).
  destruct (decide (cooldown_key site name = k)) as [Heq | Hne].
  - subst k. eexists. split; [apply lookup_insert_eq |].
    unfold in_cooldown in Ecd. rewrite Hv' in Ecd.
    apply Z.ltb_ge in Ecd. unfold minutes. lia.
  - exists v'. split; [| exact Hle]. rewrite lookup_insert_ne; done.
Qed.

(** Only rules of the table produce alerts. *)
Lemma check_rules_fired_in rules : forall cd R,
  R ∈ map alert_type (snd (check_rules site stream now rules cd)) ->
  R ∈ map fst rules.
Proof.
  induction rules as [| [name rule] rules IH]; intros cd R HR; simpl in *;
    [exact HR |].
  destruct (in_cooldown cd (cooldown_key site name) now);
    [right; eapply IH; eassumption |].
  destruct (_check_alert_condition stream rule now);
    [| right; eapply IH; eassumption].
  destruct (check_rules site stream now rules _) as [cd' alerts] eqn:Erec.
  simpl in HR. apply elem_of_cons in HR as [-> | HR]; [left |].
  right. eapply IH. rewrite Erec. exact HR.
Qed.

(** A rule whose entry lies in the future produces no alert. *)
Lemma check_rules_suppressed rules : forall cd R v,
  cd !! cooldown_key site R = Some v ->
  (now < v)%Z ->
  R ∉ map alert_type (snd (check_rules site stream now rules cd)).
Proof.
  induction rules as [| [name rule] rules IH]; intros cd R v Hv Hlt; simpl;
    [apply not_elem_of_nil |].
  destruct (in_cooldown cd (cooldown_key site name) now) eqn:Ecd;
    [eapply IH; eassumption |].
  destruct (_check_alert_condition stream rule now);
    [| eapply IH; eassumption].
  assert (Hne : cooldown_key site name <> cooldown_key site R).
  { intros Heq. unfold in_cooldown in Ecd. rewrite Heq, Hv in Ecd.
    apply Z.ltb_ge in Ecd. lia. }
  destruct (check_rules site stream now rules _) as [cd' alerts] eqn:Erec.
  simpl. intros Hin. apply elem_of_cons in Hin as [Heq | Hin].
  - apply Hne. rewrite Heq. reflexivity.
  - revert Hin. change alerts with (snd (cd', alerts)). rewrite <- Erec.
    eapply IH; [| exact Hlt]. rewrite lookup_insert_ne; done.
Qed.

(** A rule that fires leaves an entry at least one cooldown ahead. *)
Lemma check_rules_fired_entry rules : forall cd R rule,
  NoDup (map fst rules) ->
  cooldowns_nonneg rules ->
  (R, rule) ∈ rules ->
  R ∈ map alert_type (snd (check_rules site stream now rules cd)) ->
  eligible_from (fst (check_rules site stream now rules cd))
                (cooldown_key site R) (now + cooldown_duration rule).
Proof.
  induction rules as [| [name r] rules IH]; intros cd R rule Hnd Hnn Hin HR;
    simpl in *; [inversion Hin |].
  apply NoDup_cons in Hnd as [Hname Hnd].
  inversion Hnn as [| ? ? Hr Hrest]; subst; simpl in Hr.
  assert (Hskip : forall cd0,
    R ∈ map alert_type (snd (check_rules site stream now rules cd0)) ->
    eligible_from (fst (check_rules site stream now rules cd0))
                  (cooldown_key site R) (now + cooldown_duration rule)).
  { intros cd0 HR0. apply IH; try assumption.
    apply elem_of_cons in Hin as [Heq | Hin]; [| exact Hin].
    inversion Heq; subst. exfalso. apply Hname.
    eapply check_rules_fired_in. exact HR0. }
  destruct (in_cooldown cd (cooldown_key site name) now);
    [apply Hskip, HR |].
  destruct (_check_alert_condition stream r now); [| apply Hskip, HR].
  destruct (check_rules site stream now rules _) as [cd' alerts] eqn:Erec.
  simpl in *. change cd' with (fst (cd', alerts)). rewrite <- Erec.
  apply elem_of_cons in Hin as [Heq | Hin].
  - inversion Heq; subst.
    apply check_rules_eligible_from; [assumption |].
    eexists. split; [apply lookup_insert_eq |].
    unfold cooldown_duration. lia.
  - apply Hskip. rewrite Erec. simpl.
    apply elem_of_cons in HR as [-> | HR]; [| exact HR].
    exfalso. apply Hname.
    exact (list_elem_of_fmap_2 fst rules (name, rule) Hin).
Qed.
End CheckRules.

Lemma queue_put_rules es : forall s,
  alert_rules (fold_left queue_put es s) = alert_rules s /\
  alert_cooldowns (fold_left queue_put es s) = alert_cooldowns s.
Proof.
  induction es as [| e es IH]; intros s; simpl; [split; reflexivity |].
  destruct (IH (queue_put s e)) as [-> ->]. split; reflexivity.
Qed.

Lemma apply_op_rules s o : alert_rules (apply_op s o) = alert_rules s.
Proof.
  destruct o as [site ws now | site | site evs ty now | n now
                | site now | site th now]; simpl; try reflexivity.
  - unfold process_realtime_data.
    destruct (make_events site now evs); simpl; [| reflexivity].
    apply queue_put_rules.
  - unfold main_processor_step.
    destruct (processing_queue s); reflexivity.
  - unfold alert_processor_step.
    destruct (active_streams s !! site); [| reflexivity].
    unfold _check_alerts. destruct (check_rules _ _ _ _ _). reflexivity.
Qed.

Lemma apply_op_eligible_from s o k v :
  cooldowns_nonneg (alert_rules s) ->
  eligible_from (alert_cooldowns s) k v ->
  eligible_from (alert_cooldowns (apply_op s o)) k v.
Proof.
  intros Hnn Hk.
  destruct o as [site ws now | site | site evs ty now | n now
                | site now | site th now]; simpl; try exact Hk.
  - unfold process_realtime_data.
    destruct (make_events site now evs); simpl; [| exact Hk].
    destruct (queue_put_rules l s) as [_ ->]. exact Hk.
  - unfold main_processor_step.
    destruct (processing_queue s); exact Hk.
  - unfold alert_processor_step.
    destruct (active_streams s !! site) as [w |]; [| exact Hk].
    unfold _check_alerts.
    pose proof (check_rules_eligible_from site w now (alert_rules s)
                  (alert_cooldowns s) k v Hnn Hk) as H.
    destruct (check_rules _ _ _ _ _). exact H.
Qed.

Lemma run_eligible_from ops : forall s k v,
  cooldowns_nonneg (alert_rules s) ->
  eligible_from (alert_cooldowns s) k v ->
  alert_rules (run s ops) = alert_rules s /\
  eligible_from (alert_cooldowns (run s ops)) k v.
Proof.
  induction ops as [| o ops IH]; intros s k v Hnn Hk; simpl;
    [split; [reflexivity | exact Hk] |].
  destruct (IH (apply_op s o) k v) as [Hr He].
  - rewrite apply_op_rules. exact Hnn.
  - apply apply_op_eligible_from; assumption.
  - split; [rewrite Hr; apply apply_op_rules | exact He].
Qed.

(** The general form, for any rule table with distinct names and
    non-negative cooldowns. *)
Lemma cooldown_suppression (s : Service) (T R : string) (rule : AlertRule)
    (t : Z) (ops : list Op) (t' : Z) :
  NoDup (map fst (alert_rules s)) ->
  cooldowns_nonneg (alert_rules s) ->
  (R, rule) ∈ alert_rules s ->
  R ∈ fired (alert_processor_step s T t) ->
  (t' < t + cooldown_duration rule)%Z ->
  R ∉ fired (alert_processor_step
               (run (fst (alert_processor_step s T t)) ops) T t').
Proof.
  intros Hnd Hnn Hin Hfired Hlt.
  unfold fired, alert_processor_step in Hfired.
  destruct (active_streams s !! T) as [w |] eqn:Ew;
    [| simpl in Hfired; inversion Hfired].
  assert (Hent : eligible_from
            (alert_cooldowns (fst (alert_processor_step s T t)))
            (cooldown_key T R) (t + cooldown_duration rule) /\
          alert_rules (fst (alert_processor_step s T t)) = alert_rules s).
  { unfold alert_processor_step. rewrite Ew. unfold _check_alerts in *.
    pose proof (check_rules_fired_entry T w t (alert_rules s)
                  (alert_cooldowns s) R rule Hnd Hnn Hin) as H.
    destruct (check_rules _ _ _ _ _) as [cd alerts]. simpl in *.
    split; [apply H, Hfired | reflexivity]. }
  destruct Hent as [Hent Hrules].
  destruct (run_eligible_from ops _ _ _ ltac:(rewrite Hrules; exact Hnn) Hent)
    as [Hr' (v' & Hv' & Hle)].
  set (s2 := run (fst (alert_processor_step s T t)) ops) in *.
  clearbody s2. clear Hent Hrules Hr' Hfired.
  unfold fired, alert_processor_step.
  destruct (active_streams s2 !! T) as [w' |]; [| apply not_elem_of_nil].
  unfold _check_alerts.
  pose proof (check_rules_suppressed T w' t' (alert_rules s2)
                (alert_cooldowns s2) R v' Hv' ltac:(lia)) as H.
  destruct (check_rules _ _ _ _ _). exact H.
Qed.

Lemma alert_rules_table_nonneg : cooldowns_nonneg alert_rules_table.
Proof. repeat constructor; simpl; lia. Qed.

Lemma alert_rules_table_nodup : NoDup (map fst alert_rules_table).
Proof. decide_by_compute. Qed.

(** C1 (cooldown correctness).  In a service that runs the configured
    rule table: once rule [R] fires for tenant [T] in an alert check at
    time [t] (which sets the cooldown entry of [(T, R)] to
    [t + cooldown_duration]), then after any further operations (ingests,
    dispatches, session changes, alert checks at any times for any
    tenants), an alert check for [T] whose time is before
    [t + cooldown_duration] emits no alert for [R], whatever the window
    holds. *)
Theorem cooldown_correctness (s : Service) (T R : string) (rule : AlertRule)
    (t : Z) (ops : list Op) (t' : Z) :
  alert_rules s = alert_rules_table ->
  (R, rule) ∈ alert_rules_table ->
  R ∈ fired (alert_processor_step s T t) ->
  (t' < t + cooldown_duration rule)%Z ->
  R ∉ fired (alert_processor_step
               (run (fst (alert_processor_step s T t)) ops) T t').
Proof.
  intros Hrules Hin Hfired Hlt.
  apply (cooldown_suppression s T R rule t ops t'); try assumption.
  - rewrite Hrules. exact alert_rules_table_nodup.
  - rewrite Hrules. exact alert_rules_table_nonneg.
  - rewrite Hrules. exact Hin.
Qed.

Lemma cooldown_correctness_witness :
  "high_bounce_rate" ∈ fired (alert_processor_step bouncing_service "site-1" 0)
  /\ "high_bounce_rate" ∉
       fired (alert_processor_step
                (run (fst (alert_processor_step bouncing_service "site-1" 0))
                     [CheckAlerts "site-1" (minutes 10)])
                "site-1" (minutes 29)).
Proof.
  assert (Hf : "high_bounce_rate"
               ∈ fired (alert_processor_step bouncing_service "site-1" 0)).
  { decide_by_compute. }
  split; [exact Hf |].
  apply (cooldown_correctness bouncing_service "site-1" "high_bounce_rate"
           high_bounce_rate_rule 0 [CheckAlerts "site-1" (minutes 10)]
           (minutes 29)).
  - vm_compute. reflexivity.
  - do 2 apply list_elem_of_further. apply list_elem_of_here.
  - exact Hf.
  - vm_compute. reflexivity.
Defined.

(** ** Alert conditions *)

Lemma Qlt_bool_iff (x y : Q) : Qlt_bool x y = true <-> (x < y)%Q.
Proof.
  unfold Qlt_bool. rewrite negb_true_iff.
  split.
  - intros H. apply Qnot_le_lt. intros Hle.
    apply Qle_bool_iff in Hle. congruence.
  - intros H. destruct (Qle_bool y x) eqn:E; [| reflexivity].
    apply Qle_bool_iff in E. exfalso. exact (Qlt_not_le _ _ H E).
Qed.

Lemma Qlt_bool_false_iff (x y : Q) : Qlt_bool x y = false <-> ~ (x < y)%Q.
Proof.
  rewrite <- Qlt_bool_iff. destruct (Qlt_bool x y); split; intros H;
    try reflexivity; try discriminate; try (intros H'; discriminate).
  exfalso. apply H. reflexivity.
Qed.



(** C10 (zero-baseline suppression).  For a rule with only a relative
    multiplier, the condition is false whenever the baseline is 0, whenever
    no event of the window falls in the baseline interval, and in
    particular on a window without events. *)
Theorem zero_baseline_suppression (stream : StreamingWindow)
    (rule : AlertRule) (m : Q) (now : Z) :
  threshold rule = None ->
  threshold_multiplier rule = Some m ->
  ((baseline stream rule now == 0)%Q ->
   _check_alert_condition stream rule now = false) /\
  (events_after (now - minutes (default 60%Z (window_minutes rule)))
                (items (events stream)) = [] ->
   _check_alert_condition stream rule now = false) /\
  (items (events stream) = [] ->
   _check_alert_condition stream rule now = false).
Proof.
  intros Hth Hm.
  assert (Hzero : (baseline stream rule now == 0)%Q ->
                  _check_alert_condition stream rule now = false).
  { intros Hb. destruct (_check_alert_condition stream rule now) eqn:E;
      [| reflexivity].
    unfold _check_alert_condition in E. rewrite Hth, Hm in E.
    fold (baseline stream rule now) in E.
    destruct (Qlt_bool 0 (baseline stream rule now)) eqn:Eh; [| discriminate].
    apply Qlt_bool_iff in Eh. rewrite Hb in Eh.
    exfalso. exact (Qlt_irrefl 0 Eh). }
  assert (Hnone :
    events_after (now - minutes (default 60%Z (window_minutes rule)))
                 (items (events stream)) = [] ->
    _check_alert_condition stream rule now = false).
  { intros He. apply Hzero. unfold baseline, _get_historical_average.
    destruct (minutes_ago now _) as [window_start |] eqn:Ews; [| reflexivity].
    apply minutes_ago_some in Ews. subst window_start.
    unfold later_than.
    destruct (existsb tz_aware (items (events stream))); [reflexivity |].
    rewrite He. reflexivity. }
  split; [exact Hzero |]. split; [exact Hnone |].
  intros Hi. apply Hnone. rewrite Hi. reflexivity.
Qed.

Lemma zero_baseline_suppression_witness :
  events_after (minutes 20 - minutes 10) (items (events quiet_window)) = [] /\
  _check_alert_condition quiet_window traffic_drop_rule (minutes 20) = false.
Proof.
  assert (He : events_after (minutes 20 - minutes 10)
                 (items (events quiet_window)) = []).
  { vm_compute. reflexivity. }
  split; [exact He |].
  exact (proj1 (proj2 (zero_baseline_suppression quiet_window
                         traffic_drop_rule 0.3%Q (minutes 20)
                         eq_refl eq_refl)) He).
Defined.

(** ** Forecasts *)

Lemma page_views_since_some (es : list RealtimeEvent) (now i : Z) :
  (1 <= i <= 5)%Z ->
  clock_in_range now 5 ->
  existsb tz_aware (List.filter is_page_view es) = false ->
  exists n, page_views_since es now i = Some n /\
            (n <= length (List.filter is_page_view es))%nat.
Proof.
  intros Hi [Hlo Hhi] Hnaive. unfold page_views_since.
  destruct (List.filter is_page_view es) as [| e page_views] eqn:Ef.
  - exists 0%nat. split; [reflexivity | lia].
  - assert (Hago : minutes_ago now i = Some (now - minutes i)%Z).
    { apply minutes_ago_in_range; [lia |].
      unfold clock_in_range, minutes in *. lia. }
    rewrite Hago. unfold later_than. rewrite Hnaive.
    exists (length (events_after (now - minutes i) (e :: page_views))).
    split; [reflexivity |]. apply filter_length_bound.
Qed.

Lemma page_views_since_aware (es : list RealtimeEvent) (now i : Z) :
  existsb tz_aware (List.filter is_page_view es) = true ->
  page_views_since es now i = None.
Proof.
  intros Haware. unfold page_views_since.
  destruct (List.filter is_page_view es) as [| e page_views];
    [discriminate |].
  destruct (minutes_ago now i); [| reflexivity].
  unfold later_than. rewrite Haware. reflexivity.
Qed.

(** The five counts, when none of them raises. *)
Lemma recent_page_views_some (es : list RealtimeEvent) (now : Z) :
  clock_in_range now 5 ->
  existsb tz_aware (List.filter is_page_view es) = false ->
  exists n1 n2 n3 n4 n5,
    mapM (page_views_since es now) [1%Z; 2%Z; 3%Z; 4%Z; 5%Z]
    = Some [n1; n2; n3; n4; n5] /\
    Forall (fun n => (n <= length (List.filter is_page_view es))%nat)
           [n1; n2; n3; n4; n5].
Proof.
  intros Hclock Hnaive.
  destruct (page_views_since_some es now 1 ltac:(lia) Hclock Hnaive)
    as (n1 & E1 & H1).
  destruct (page_views_since_some es now 2 ltac:(lia) Hclock Hnaive)
    as (n2 & E2 & H2).
  destruct (page_views_since_some es now 3 ltac:(lia) Hclock Hnaive)
    as (n3 & E3 & H3).
  destruct (page_views_since_some es now 4 ltac:(lia) Hclock Hnaive)
    as (n4 & E4 & H4).
  destruct (page_views_since_some es now 5 ltac:(lia) Hclock Hnaive)
    as (n5 & E5 & H5).
  exists n1, n2, n3, n4, n5. split.
  - cbn [mapM]. rewrite E1, E2, E3, E4, E5. reflexivity.
  - repeat constructor; assumption.
Qed.

(** The data floor of the forecast.  With fewer than 10 buffered events
    [_generate_predictions] returns the empty result.  With 10 or more it
    returns a prediction whose confidence is 0.75, a value between 0 and
    1, provided no buffered page view has an offset-aware timestamp (and
    the clock is five minutes inside the range of [datetime]).  When a
    buffered page view has an offset-aware timestamp the result is empty,
    however many events are buffered. *)
Lemma forecast_data_floor (stream : StreamingWindow) (now : Z) :
  let buffered := items (events stream) in
  ((length buffered < 10)%nat -> _generate_predictions stream now = None) /\
  ((10 <= length buffered)%nat ->
   clock_in_range now 5 ->
   existsb tz_aware (List.filter is_page_view buffered) = false ->
   exists p, _generate_predictions stream now = Some p /\
             (confidence p == 0.75)%Q /\
             (0 <= confidence p <= 1)%Q) /\
  (existsb tz_aware (List.filter is_page_view buffered) = true ->
   _generate_predictions stream now = None).
Proof.
  intros buffered. subst buffered. unfold _generate_predictions.
  split; [| split].
  - intros Hlt. apply Nat.ltb_lt in Hlt. rewrite Hlt. reflexivity.
  - intros Hge Hclock Hnaive.
    destruct (Nat.ltb_spec (length (items (events stream))) 10) as [Hlt | _];
      [lia |].
    destruct (recent_page_views_some _ now Hclock Hnaive)
      as (n1 & n2 & n3 & n4 & n5 & -> & _).
    eexists. split; [reflexivity |]. cbn [confidence].
    split; [reflexivity |]. split; discriminate.
  - intros Haware.
    destruct (length (items (events stream)) <? 10)%nat; [reflexivity |].
    cbn [mapM]. rewrite (page_views_since_aware _ now 1 Haware). reflexivity.
Qed.

(** Ten page views without offset give a prediction, five give none. *)
Lemma forecast_data_floor_on_naive_timestamps :
  (exists p, _generate_predictions ten_events_window (minutes 1) = Some p /\
             (confidence p == 0.75)%Q /\ (0 <= confidence p <= 1)%Q) /\
  _generate_predictions quiet_window (minutes 1) = None.
Proof.
  split.
  - apply (proj1 (proj2 (forecast_data_floor ten_events_window (minutes 1)))).
    + apply Nat.leb_le. vm_compute. reflexivity.
    + split; vm_compute; discriminate.
    + vm_compute. reflexivity.
  - apply (proj1 (forecast_data_floor quiet_window (minutes 1))).
    apply Nat.ltb_lt. vm_compute. reflexivity.
Qed.

(** C9 (forecast data floor) fails on this input.  Ten page views whose
    timestamps carry a UTC offset were submitted and dispatched: all ten
    were queued and are buffered in the window, which is at the floor, and
    the forecast is empty, a minute later as at any other time. *)
Theorem forecast_data_floor_failing_input :
  snd (process_realtime_data
         (start_realtime_analysis initialized_service "site-1" 0 0)
         "site-1" (repeat aware_page_view 10) "standard" 0)
  = IngestOk 10
      {| events_processed := 10; instant_unique_sessions := 1;
         instant_page_views := 10; instant_conversions := 0 |}
      (StandardAnalysis 10) /\
  active_streams aware_service !! "site-1" = Some aware_window /\
  length (items (events aware_window)) = 10%nat /\
  (10 <=? length (items (events aware_window)))%nat = true /\
  _generate_predictions aware_window (minutes 1) = None /\
  forall now, _generate_predictions aware_window now = None.
Proof.
  split; [vm_compute; reflexivity |].
  split; [vm_compute; reflexivity |].
  split; [vm_compute; reflexivity |].
  split; [vm_compute; reflexivity |].
  split; [vm_compute; reflexivity |].
  intros now.
  apply (proj2 (proj2 (forecast_data_floor aware_window now))).
  vm_compute. reflexivity.
Qed.

(** ** Ingest *)

Lemma queue_put_all es : forall s,
  fold_left queue_put es s =
  {| active_streams := active_streams s; alert_rules := alert_rules s;
     alert_cooldowns := alert_cooldowns s;
     processing_queue := processing_queue s ++ es;
     custom_thresholds := custom_thresholds s |}.
Proof.
  induction es as [| e es IH]; intros s; simpl.
  - rewrite app_nil_r. destruct s; reflexivity.
  - rewrite IH. simpl. rewrite <- app_assoc. reflexivity.
Qed.

Lemma make_events_length site now evs : forall es,
  make_events site now evs = Some es -> length es = length evs.
Proof.
  induction evs as [| ev evs IH]; intros es H; simpl in H.
  - inversion H. reflexivity.
  - destruct (make_event site now ev); [| discriminate].
    destruct (make_events site now evs) as [es' |]; [| discriminate].
    inversion H. simpl. rewrite (IH es' eq_refl). reflexivity.
Qed.

Lemma make_events_some site now evs :
  Forall (fun ev => ~ malformed ev) evs ->
  exists es, make_events site now evs = Some es.
Proof.
  induction 1 as [| ev evs Hev _ [es IH]]; simpl; [eexists; reflexivity |].
  unfold make_event. unfold malformed in Hev.
  destruct (raw_timestamp ev); try congruence; rewrite IH; eexists; reflexivity.
Qed.

Lemma make_events_none site now evs :
  Exists malformed evs -> make_events site now evs = None.
Proof.
  induction 1 as [ev evs Hev | ev evs _ IH]; simpl.
  - unfold make_event. rewrite Hev. reflexivity.
  - destruct (make_event site now ev); [| reflexivity].
    rewrite IH. reflexivity.
Qed.

Lemma make_event_carries site now ev e :
  make_event site now ev = Some e -> carries site now ev e.
Proof.
  unfold make_event, carries.
  destruct (raw_timestamp ev); intros H; inversion H; simpl;
    destruct (raw_data ev); repeat split; reflexivity.
Qed.

Lemma make_events_carries site now evs : forall es,
  make_events site now evs = Some es -> Forall2 (carries site now) evs es.
Proof.
  induction evs as [| ev evs IH]; intros es H; simpl in H.
  - inversion H. constructor.
  - destruct (make_event site now ev) as [e |] eqn:Ee; [| discriminate].
    destruct (make_events site now evs) as [es' |]; [| discriminate].
    inversion H; subst. constructor.
    + apply make_event_carries, Ee.
    + apply IH. reflexivity.
Qed.

(** What an ingest of events that all parse returns and leaves. *)
Lemma process_realtime_data_ok (s : Service) (site : string)
    (event_data : list RawEvent) (analysis_type : string) (now : Z) :
  Forall (fun ev => ~ malformed ev) event_data ->
  exists processed,
    make_events site now event_data = Some processed /\
    Forall2 (carries site now) event_data processed /\
    process_realtime_data s site event_data analysis_type now
    = (set_queue s (processing_queue s ++ processed),
       IngestOk (length event_data)
         (_calculate_instant_metrics processed)
         (_perform_analysis processed analysis_type)).
Proof.
  intros Hok. destruct (make_events_some site now event_data Hok) as [es Hes].
  exists es. split; [exact Hes |].
  split; [exact (make_events_carries _ _ _ _ Hes) |].
  unfold process_realtime_data. rewrite Hes.
  rewrite queue_put_all, (make_events_length _ _ _ _ Hes). reflexivity.
Qed.

(** C5, as the code has it.  The intake queue has no capacity: whatever
    it already holds, an ingest whose events all parse appends every one of
    them, in order and with the fields as submitted (absent ones
    defaulted), to the end of the queue, changes nothing else, and returns
    the result that counts them. *)
Theorem intake_queue_unbounded (s : Service) (site : string)
    (event_data : list RawEvent) (analysis_type : string) (now : Z) :
  Forall (fun ev => ~ malformed ev) event_data ->
  exists processed,
    make_events site now event_data = Some processed /\
    Forall2 (carries site now) event_data processed /\
    fst (process_realtime_data s site event_data analysis_type now)
    = set_queue s (processing_queue s ++ processed) /\
    snd (process_realtime_data s site event_data analysis_type now)
    = IngestOk (length event_data)
        (_calculate_instant_metrics processed)
        (_perform_analysis processed analysis_type).
Proof.
  intros Hok.
  destruct (process_realtime_data_ok s site event_data analysis_type now Hok)
    as (processed & Hes & Hcarries & Hres).
  exists processed. rewrite Hres. repeat split; assumption.
Qed.

Lemma intake_queue_unbounded_witness :
  length (processing_queue (backlog 5000)) = 5000%nat /\
  exists processed,
    make_events "site-1" 0 [one_event] = Some processed /\
    Forall2 (carries "site-1" 0) [one_event] processed /\
    fst (process_realtime_data (backlog 5000) "site-1" [one_event]
           "standard" 0)
    = set_queue (backlog 5000)
        (processing_queue (backlog 5000) ++ processed) /\
    snd (process_realtime_data (backlog 5000) "site-1" [one_event]
           "standard" 0)
    = IngestOk 1 (_calculate_instant_metrics processed)
        (_perform_analysis processed "standard").
Proof.
  split; [apply repeat_length |].
  apply (intake_queue_unbounded (backlog 5000) "site-1" [one_event]
           "standard" 0).
  repeat constructor. discriminate.
Defined.

(** C5 as stated fails: there is no capacity beyond which an ingest is
    refused. *)
Lemma intake_queue_counterexample :
  ~ exists capacity : nat,
      forall s : Service,
        (capacity <= length (processing_queue s))%nat ->
        snd (process_realtime_data s "site-1" [one_event] "standard" 0)
        = IngestError.
Proof.
  intros [capacity H].
  assert (Hfull : (capacity <= length (processing_queue (backlog capacity)))%nat).
  { simpl. rewrite repeat_length. lia. }
  specialize (H (backlog capacity) Hfull). discriminate H.
Qed.

(** C8, as the code has it.  No event is dropped for a missing field:
    an event whose timestamp parses is kept, with the tenant of the call,
    every field that is present as submitted and the absent ones defaulted
    (type ["unknown"], the time of the call, empty data, no user, no
    session).  When every event of the batch parses, all of them are
    queued, in order.  When any event of the batch has a timestamp that
    does not parse, the call returns the error result and leaves the
    service as it was: nothing is queued, the well-formed events
    included. *)
Theorem validation_failure_aborts_batch (s : Service) (site : string)
    (event_data : list RawEvent) (analysis_type : string) (now : Z) :
  (Exists malformed event_data ->
   process_realtime_data s site event_data analysis_type now
   = (s, IngestError)) /\
  (Forall (fun ev => ~ malformed ev) event_data ->
   exists processed,
     Forall2 (carries site now) event_data processed /\
     processing_queue
       (fst (process_realtime_data s site event_data analysis_type now))
     = processing_queue s ++ processed /\
     snd (process_realtime_data s site event_data analysis_type now)
     = IngestOk (length event_data)
         (_calculate_instant_metrics processed)
         (_perform_analysis processed analysis_type)) /\
  (forall ev, ~ malformed ev ->
   exists e, make_event site now ev = Some e /\ carries site now ev e) /\
  (forall e, carries site now bare_event e <->
   e = {| site_id := site; event_type := Some "unknown"; timestamp := now;
          tz_aware := false; data := DataDict false;
          user_id := None; session_id := None |}).
Proof.
  split; [| split; [| split]].
  - intros Hbad. unfold process_realtime_data.
    rewrite (make_events_none site now event_data Hbad). reflexivity.
  - intros Hok.
    destruct (process_realtime_data_ok s site event_data analysis_type now
                Hok) as (processed & _ & Hcarries & Hres).
    exists processed. rewrite Hres. repeat split; assumption.
  - intros ev Hev.
    destruct (make_event site now ev) as [e |] eqn:Ee.
    + exists e. split; [reflexivity | apply make_event_carries, Ee].
    + exfalso. apply Hev. unfold make_event in Ee. unfold malformed.
      destruct (raw_timestamp ev); try discriminate. reflexivity.
  - intros e. split.
    + intros (H1 & H2 & [H3 H4] & H5 & H6 & H7). destruct e; simpl in *.
      subst. reflexivity.
    + intros ->. repeat split.
Qed.

Lemma validation_failure_witness :
  Exists malformed [one_event; malformed_event] /\
  process_realtime_data initialized_service "site-1"
    [one_event; malformed_event] "standard" 0
  = (initialized_service, IngestError).
Proof.
  assert (Hbad : Exists malformed [one_event; malformed_event]).
  { right. left. reflexivity. }
  split; [exact Hbad |].
  exact (proj1 (validation_failure_aborts_batch initialized_service "site-1"
                  [one_event; malformed_event] "standard" 0) Hbad).
Defined.

(** C8 as stated fails: a batch of one well-formed and one malformed
    event yields the error result, and the well-formed event is not
    queued. *)
Lemma validation_failure_counterexample :
  ~ malformed one_event /\
  snd (process_realtime_data initialized_service "site-1"
         [one_event; malformed_event] "standard" 0) = IngestError /\
  processing_queue
    (fst (process_realtime_data initialized_service "site-1"
            [one_event; malformed_event] "standard" 0)) = [].
Proof. split; [discriminate |]. split; reflexivity. Qed.

(** ** Threshold overrides *)

(** C6, as the code has it.  [configure_thresholds] stores the tenant's
    thresholds under its key with a lifetime of 24 hours, and the alert
    check never reads them: with or without the stored thresholds it emits
    the same alerts and leaves the same cooldowns. *)
Theorem threshold_override_ignored (s : Service) (site : string)
    (thresholds : gmap string Q) (now0 : Z) (site' : string) (now : Z) :
  custom_thresholds (configure_thresholds s site thresholds now0)
    !! String.append "custom_thresholds:" site
  = Some ((now0 + seconds 86400)%Z, thresholds) /\
  snd (alert_processor_step
         (configure_thresholds s site thresholds now0) site' now)
  = snd (alert_processor_step s site' now) /\
  alert_cooldowns
    (fst (alert_processor_step
            (configure_thresholds s site thresholds now0) site' now))
  = alert_cooldowns (fst (alert_processor_step s site' now)).
Proof.
  split; [apply lookup_insert_eq |].
  unfold alert_processor_step.
  change (active_streams (configure_thresholds s site thresholds now0))
    with (active_streams s).
  destruct (active_streams s !! site') as [w |]; [| split; reflexivity].
  unfold _check_alerts.
  change (alert_rules (configure_thresholds s site thresholds now0))
    with (alert_rules s).
  change (alert_cooldowns (configure_thresholds s site thresholds now0))
    with (alert_cooldowns s).
  destruct (check_rules site' w now (alert_rules s) (alert_cooldowns s)).
  split; reflexivity.
Qed.

(** C6 as stated fails: the tenant raised the bounce-rate threshold to
    0.95, the stored value has not expired, the bounce rate is 0.9, and
    [high_bounce_rate] fires all the same. *)
Lemma threshold_override_counterexample :
  stored_threshold overridden_service "site-1" "bounce_rate" (minutes 1)
  = Some 0.95%Q /\
  active_streams overridden_service !! "site-1" = Some bouncing_window /\
  (metrics_get (metrics bouncing_window) "bounce_rate" <= 0.95)%Q /\
  "high_bounce_rate"
  ∈ fired (alert_processor_step overridden_service "site-1" (minutes 1)).
Proof.
  split; [vm_compute; reflexivity |].
  split; [vm_compute; reflexivity |].
  split; [vm_compute; discriminate |].
  decide_by_compute.
Qed.

(** ** Zero denominators *)

Lemma group_by_no_key {A} (key : A -> option string) (l : list A) :
  omap key l = [] -> group_by key l = [].
Proof.
  unfold group_by. generalize (@nil (string * list A)).
  induction l as [| x l IH]; intros g H; simpl in *; [reflexivity |].
  destruct (key x); [discriminate |]. apply IH, H.
Qed.

Lemma ratio_zero (n : nat) : (Qnat 0 / Qnat n == 0)%Q.
Proof. unfold Qdiv. apply Qmult_0_l. Qed.

(** What the recomputation does with empty denominators.  When nothing
    raises and no event of the window falls in the lookback interval, it
    sets [conversion_rate] and [error_rate] to 0.  When the interval holds
    no session, it leaves [bounce_rate] as it was: 0 on a window that never
    had one, the last computed value otherwise.  When a buffered event has
    an offset-aware timestamp, it writes nothing at all. *)
Lemma zero_denominator_defaulting (es : list RealtimeEvent)
    (m : gmap string Q) (now : Z) :
  (clock_in_range now 1 -> existsb tz_aware es = false ->
   (events_after (now - minutes 1) es = [] ->
    (metrics_get (updated_metrics es m now) "conversion_rate" == 0)%Q /\
    (metrics_get (updated_metrics es m now) "error_rate" == 0)%Q) /\
   (session_ids (events_after (now - minutes 1) es) = [] ->
    metrics_get (updated_metrics es m now) "bounce_rate"
    = metrics_get m "bounce_rate")) /\
  (existsb tz_aware es = true -> updated_metrics es m now = m) /\
  metrics_get ∅ "bounce_rate" = 0%Q.
Proof.
  split; [| split; [| reflexivity]].
  - intros Hclock Hnaive. rewrite (updated_metrics_recent _ _ _ Hclock Hnaive).
    split.
    + intros He. rewrite He. unfold metrics_of_recent.
      change (mapM is_error []) with (Some (@nil bool)). cbv iota.
      split.
      * rewrite (metrics_get_insert_ne _ "error_rate") by discriminate.
        rewrite metrics_get_insert_eq. apply ratio_zero.
      * rewrite metrics_get_insert_eq. apply ratio_zero.
    + intros Hs. unfold metrics_of_recent.
      assert (Hb : forall m',
        metrics_get
          (update_bounce_rate (events_after (now - minutes 1) es) m')
          "bounce_rate" = metrics_get m' "bounce_rate").
      { intros m'. unfold update_bounce_rate.
        rewrite (group_by_no_key _ _ Hs). reflexivity. }
      destruct (mapM is_error _);
        rewrite !(metrics_get_insert_ne _ _ "bounce_rate") by discriminate;
        rewrite Hb;
        rewrite !(metrics_get_insert_ne _ _ "bounce_rate") by discriminate;
        reflexivity.
  - intros Haware. unfold updated_metrics.
    destruct (minutes_ago now 1); [| reflexivity].
    unfold later_than. rewrite Haware. reflexivity.
Qed.

(** C7 (zero-denominator defaulting) fails on this input.  One event of
    one session was dispatched at time 0; five minutes later an event that
    is already older than the lookback interval is dispatched.  The window
    was recomputed at minute 5, no event lies in its lookback interval,
    [conversion_rate] and [error_rate] are 0, and its bounce rate is still
    the 1 the session left at time 0; the alert check of that moment raises
    [high_bounce_rate] on it. *)
Theorem zero_denominator_failing_input :
  active_streams stale_bounce_service !! "site-1" = Some stale_bounce_window /\
  last_update stale_bounce_window = minutes 5 /\
  events_after (minutes 5 - minutes 1)
    (items (events stale_bounce_window)) = [] /\
  (metrics_get (metrics stale_bounce_window) "bounce_rate" == 1)%Q /\
  (metrics_get (metrics stale_bounce_window) "conversion_rate" == 0)%Q /\
  (metrics_get (metrics stale_bounce_window) "error_rate" == 0)%Q /\
  "high_bounce_rate"
  ∈ fired (alert_processor_step stale_bounce_service "site-1" (minutes 5)).
Proof.
  split; [vm_compute; reflexivity |].
  split; [vm_compute; reflexivity |].
  split; [vm_compute; reflexivity |].
  split; [vm_compute; reflexivity |].
  split; [vm_compute; reflexivity |].
  split; [vm_compute; reflexivity |].
  decide_by_compute.
Qed.

(** * Further properties of the rule engine *)

Lemma cooldown_key_nil (r : string) :
  cooldown_key EmptyString r = String colon r.
Proof. reflexivity. Qed.

Lemma cooldown_key_cons (c : Ascii.ascii) (site r : string) :
  cooldown_key (String c site) r = String c (cooldown_key site r).
Proof. reflexivity. Qed.

Lemma cooldown_key_inj (site r1 r2 : string) :
  cooldown_key site r1 = cooldown_key site r2 -> r1 = r2.
Proof.
  induction site as [| c site IH]; intros H.
  - rewrite !cooldown_key_nil in H. inversion H. reflexivity.
  - rewrite !cooldown_key_cons in H. inversion H. apply IH. assumption.
Qed.

Lemma has_colon_key (site r : string) : has_colon (cooldown_key site r) = true.
Proof.
  induction site as [| c site IH].
  - reflexivity.
  - rewrite cooldown_key_cons. simpl. rewrite IH. apply orb_true_r.
Qed.

(** Keys of rule names without a colon determine tenant and rule. *)
Lemma cooldown_key_inj_site (s1 s2 r1 r2 : string) :
  has_colon r1 = false -> has_colon r2 = false ->
  cooldown_key s1 r1 = cooldown_key s2 r2 -> s1 = s2 /\ r1 = r2.
Proof.
  intros H1 H2. revert s2.
  induction s1 as [| c s1 IH]; intros [| c' s2] H.
  - split; [reflexivity | exact (cooldown_key_inj EmptyString r1 r2 H)].
  - exfalso. rewrite cooldown_key_nil, cooldown_key_cons in H.
    inversion H as [[Hc Hr]].
    rewrite Hr, has_colon_key in H1. discriminate.
  - exfalso. rewrite cooldown_key_nil, cooldown_key_cons in H.
    inversion H as [[Hc Hr]].
    rewrite <- Hr, has_colon_key in H2. discriminate.
  - rewrite !cooldown_key_cons in H. inversion H as [[Hc Hr]].
    destruct (IH s2 Hr) as [-> ->]. split; reflexivity.
Qed.

Section CheckRulesMore.
Variables (site : string) (stream : StreamingWindow) (now : Z).

(** The loop leaves alone every entry that is not the key of one of its
    rules. *)
Lemma check_rules_other_entry rules : forall cd k,
  (forall R, R ∈ map fst rules -> cooldown_key site R <> k) ->
  fst (check_rules site stream now rules cd) !! k = cd !! k.
Proof.
  induction rules as [| [name rule] rules IH]; intros cd k Hk; simpl;
    [reflexivity |].
  assert (Hrest : forall R, R ∈ map fst rules -> cooldown_key site R <> k).
  { intros R HR. apply Hk. right. exact HR. }
  destruct (in_cooldown cd (cooldown_key site name) now); [apply IH, Hrest |].
  destruct (_check_alert_condition stream rule now); [| apply IH, Hrest].
  destruct (check_rules site stream now rules _) as [cd' alerts] eqn:Erec.
  simpl. change cd' with (fst (cd', alerts)). rewrite <- Erec.
  rewrite IH by exact Hrest.
  apply lookup_insert_ne. apply Hk. left.
Qed.

(** The alerts of the loop depend only on the entries of its own keys. *)
Lemma check_rules_agree rules : forall cd1 cd2,
  (forall R, R ∈ map fst rules ->
             cd1 !! cooldown_key site R = cd2 !! cooldown_key site R) ->
  snd (check_rules site stream now rules cd1)
  = snd (check_rules site stream now rules cd2).
Proof.
  induction rules as [| [name rule] rules IH]; intros cd1 cd2 Hag; simpl;
    [reflexivity |].
  assert (Hrest : forall R, R ∈ map fst rules ->
            cd1 !! cooldown_key site R = cd2 !! cooldown_key site R).
  { intros R HR. apply Hag. right. exact HR. }
  unfold in_cooldown. rewrite <- (Hag name) by left.
  destruct (match cd1 !! cooldown_key site name with
            | Some next_eligible => (now <? next_eligible)%Z
            | None => false
            end); [apply IH, Hrest |].
  destruct (_check_alert_condition stream rule now); [| apply IH, Hrest].
  specialize (IH (<[cooldown_key site name :=
                     (now + minutes (default 30%Z (cooldown_minutes rule)))%Z]> cd1)
                 (<[cooldown_key site name :=
                     (now + minutes (default 30%Z (cooldown_minutes rule)))%Z]> cd2)).
  destruct (check_rules site stream now rules (<[_ := _]> cd1)) as [c1 a1].
  destruct (check_rules site stream now rules (<[_ := _]> cd2)) as [c2 a2].
  simpl in *. f_equal. apply IH.
  intros R HR.
  destruct (decide (cooldown_key site name = cooldown_key site R)) as [He | Hne].
  - rewrite He, !lookup_insert_eq. reflexivity.
  - rewrite !lookup_insert_ne by exact Hne. apply Hrest, HR.
Qed.

(** A rule fires in the loop exactly when it is not in cooldown and its
    condition holds; it then gets the entry [now + cooldown]. *)
Lemma check_rules_fires_iff rules : forall cd R,
  NoDup (map fst rules) ->
  (R ∈ map alert_type (snd (check_rules site stream now rules cd)) <->
   exists rule, (R, rule) ∈ rules /\
                in_cooldown cd (cooldown_key site R) now = false /\
                _check_alert_condition stream rule now = true).
Proof.
  induction rules as [| [name r] rules IH]; intros cd R Hnd; simpl.
  - split; [intros H; inversion H | intros (rule & H & _); inversion H].
  - apply NoDup_cons in Hnd as [Hname Hnd].
    assert (Htail : forall cd',
      (R <> name -> in_cooldown cd' (cooldown_key site R) now
                    = in_cooldown cd (cooldown_key site R) now) ->
      R ∈ map alert_type (snd (check_rules site stream now rules cd')) ->
      exists rule, (R, rule) ∈ (name, r) :: rules /\
                   in_cooldown cd (cooldown_key site R) now = false /\
                   _check_alert_condition stream rule now = true).
    { intros cd' Hsame HR.
      assert (Hne : R <> name).
      { intros ->. apply Hname. eapply check_rules_fired_in. exact HR. }
      apply IH in HR as (rule & Hin & Hcd & Hc); [| exact Hnd].
      exists rule. split; [right; exact Hin |].
      split; [rewrite <- (Hsame Hne); exact Hcd | exact Hc]. }
    assert (Hhead : forall cd',
      (R <> name -> in_cooldown cd' (cooldown_key site R) now
                    = in_cooldown cd (cooldown_key site R) now) ->
      R <> name ->
      (exists rule, (R, rule) ∈ (name, r) :: rules /\
                    in_cooldown cd (cooldown_key site R) now = false /\
                    _check_alert_condition stream rule now = true) ->
      R ∈ map alert_type (snd (check_rules site stream now rules cd'))).
    { intros cd' Hsame Hne (rule & Hin & Hcd & Hc).
      apply IH; [exact Hnd |]. exists rule.
      apply elem_of_cons in Hin as [Heq | Hin]; [inversion Heq; congruence |].
      split; [exact Hin |]. split; [rewrite (Hsame Hne); exact Hcd | exact Hc]. }
    assert (Hins : forall v, R <> name ->
      in_cooldown (<[cooldown_key site name := v]> cd) (cooldown_key site R) now
      = in_cooldown cd (cooldown_key site R) now).
    { intros v Hne. unfold in_cooldown. rewrite lookup_insert_ne; [reflexivity |].
      intros He. apply Hne. symmetry. exact (cooldown_key_inj _ _ _ He). }
    destruct (in_cooldown cd (cooldown_key site name) now) eqn:Ecd.
    + split; [apply Htail; reflexivity |].
      intros H. apply (Hhead cd); [reflexivity | | exact H].
      intros ->. destruct H as (rule & _ & Hcd & _). congruence.
    + destruct (_check_alert_condition stream r now) eqn:Ec.
      * destruct (check_rules site stream now rules _) as [cd' alerts] eqn:Erec.
        simpl. split.
        -- intros HR. apply elem_of_cons in HR as [-> | HR].
           ++ exists r. split; [left |]. split; assumption.
           ++ eapply Htail; [apply Hins |]. rewrite Erec. exact HR.
        -- intros H. destruct (decide (R = name)) as [-> | Hne]; [left |].
           right. change alerts with (snd (cd', alerts)). rewrite <- Erec.
           eapply Hhead; [apply Hins | exact Hne | exact H].
      * split; [apply Htail; reflexivity |].
        intros H. apply (Hhead cd); [reflexivity | | exact H].
        intros ->. destruct H as (rule & Hin & _ & Hc).
        apply elem_of_cons in Hin as [Heq | Hin]; [inversion Heq; congruence |].
        apply Hname. exact (list_elem_of_fmap_2 fst rules (name, rule) Hin).
Qed.

(** The entry a firing rule gets is exactly [now + cooldown]. *)
Lemma check_rules_fired_exact rules : forall cd R rule,
  NoDup (map fst rules) ->
  (R, rule) ∈ rules ->
  R ∈ map alert_type (snd (check_rules site stream now rules cd)) ->
  fst (check_rules site stream now rules cd) !! cooldown_key site R
  = Some (now + cooldown_duration rule)%Z.
Proof.
  induction rules as [| [name r] rules IH]; intros cd R rule Hnd Hin HR;
    simpl in *; [inversion Hin |].
  apply NoDup_cons in Hnd as [Hname Hnd].
  assert (Hskip : forall cd0,
    R ∈ map alert_type (snd (check_rules site stream now rules cd0)) ->
    fst (check_rules site stream now rules cd0) !! cooldown_key site R
    = Some (now + cooldown_duration rule)%Z).
  { intros cd0 HR0. apply IH; try assumption.
    apply elem_of_cons in Hin as [Heq | Hin]; [| exact Hin].
    inversion Heq; subst. exfalso. apply Hname.
    eapply check_rules_fired_in. exact HR0. }
  destruct (in_cooldown cd (cooldown_key site name) now); [apply Hskip, HR |].
  destruct (_check_alert_condition stream r now); [| apply Hskip, HR].
  destruct (check_rules site stream now rules _) as [cd' alerts] eqn:Erec.
  simpl in *. change cd' with (fst (cd', alerts)). rewrite <- Erec.
  apply elem_of_cons in Hin as [Heq | Hin].
  - inversion Heq; subst.
    rewrite check_rules_other_entry; [apply lookup_insert_eq |].
    intros R' HR' He. apply Hname.
    rewrite (cooldown_key_inj _ _ _ He) in HR'. exact HR'.
  - apply Hskip. rewrite Erec. simpl.
    apply elem_of_cons in HR as [-> | HR]; [| exact HR].
    exfalso. apply Hname.
    exact (list_elem_of_fmap_2 fst rules (name, rule) Hin).
Qed.

(** The alerts come in the order of the rule table, one per rule at
    most. *)
Lemma check_rules_sublist rules : forall cd,
  map alert_type (snd (check_rules site stream now rules cd))
  `sublist_of` map fst rules.
Proof.
  induction rules as [| [name rule] rules IH]; intros cd; simpl;
    [constructor |].
  destruct (in_cooldown cd (cooldown_key site name) now);
    [apply sublist_cons, IH |].
  destruct (_check_alert_condition stream rule now);
    [| apply sublist_cons, IH].
  specialize (IH (<[cooldown_key site name :=
                     (now + minutes (default 30%Z (cooldown_minutes rule)))%Z]> cd)).
  destruct (check_rules site stream now rules _) as [cd' alerts].
  simpl in *. apply sublist_skip, IH.
Qed.

(** What an alert of the loop carries. *)
Lemma check_rules_alert_fields rules : forall cd a,
  a ∈ snd (check_rules site stream now rules cd) ->
  exists rule, (alert_type a, rule) ∈ rules /\
               _check_alert_condition stream rule now = true /\
               a = _create_alert (alert_type a) rule stream now.
Proof.
  induction rules as [| [name rule] rules IH]; intros cd a Ha; simpl in *;
    [inversion Ha |].
  assert (Hrest : forall cd0,
    a ∈ snd (check_rules site stream now rules cd0) ->
    exists rule0, (alert_type a, rule0) ∈ (name, rule) :: rules /\
                  _check_alert_condition stream rule0 now = true /\
                  a = _create_alert (alert_type a) rule0 stream now).
  { intros cd0 H0. destruct (IH cd0 a H0) as (r0 & Hin & Hc & He).
    exists r0. split; [right; exact Hin | split; assumption]. }
  destruct (in_cooldown cd (cooldown_key site name) now); [apply (Hrest _ Ha) |].
  destruct (_check_alert_condition stream rule now) eqn:Ec;
    [| apply (Hrest _ Ha)].
  destruct (check_rules site stream now rules _) as [cd' alerts] eqn:Erec.
  simpl in Ha. apply elem_of_cons in Ha as [-> | Ha].
  - exists rule. simpl. split; [left |]. split; [exact Ec | reflexivity].
  - apply (Hrest (<[cooldown_key site name :=
                      (now + minutes (default 30%Z (cooldown_minutes rule)))%Z]> cd)).
    rewrite Erec. exact Ha.
Qed.
End CheckRulesMore.

(** X1.  In an alert check for an active tenant, a rule fires exactly
    when its cooldown entry does not lie in the future and its condition
    holds on the tenant's window. *)
Theorem alert_fires_iff (s : Service) (T : string) (w : StreamingWindow)
    (R : string) (now : Z) :
  NoDup (map fst (alert_rules s)) ->
  active_streams s !! T = Some w ->
  (R ∈ fired (alert_processor_step s T now) <->
   exists rule, (R, rule) ∈ alert_rules s /\
                in_cooldown (alert_cooldowns s) (cooldown_key T R) now = false /\
                _check_alert_condition w rule now = true).
Proof.
  intros Hnd Hw. unfold fired, alert_processor_step. rewrite Hw.
  unfold _check_alerts.
  pose proof (check_rules_fires_iff T w now (alert_rules s)
                (alert_cooldowns s) R Hnd) as H.
  destruct (check_rules _ _ _ _ _). exact H.
Qed.

Lemma bouncing_window_lookup :
  active_streams bouncing_service !! "site-1" = Some bouncing_window.
Proof. vm_compute. reflexivity. Qed.

Lemma alert_fires_iff_witness :
  "high_bounce_rate" ∈ fired (alert_processor_step bouncing_service "site-1" 0)
  <-> exists rule,
        ("high_bounce_rate", rule) ∈ alert_rules bouncing_service /\
        in_cooldown (alert_cooldowns bouncing_service)
          (cooldown_key "site-1" "high_bounce_rate") 0 = false /\
        _check_alert_condition bouncing_window rule 0 = true.
Proof.
  exact (alert_fires_iff bouncing_service "site-1" bouncing_window
           "high_bounce_rate" 0 alert_rules_table_nodup
           bouncing_window_lookup).
Defined.

(** X2.  A rule that fires at time [now] leaves the cooldown entry of its
    tenant and name at exactly [now + cooldown_duration]. *)
Theorem cooldown_entry_after_firing (s : Service) (T R : string)
    (rule : AlertRule) (now : Z) :
  NoDup (map fst (alert_rules s)) ->
  (R, rule) ∈ alert_rules s ->
  R ∈ fired (alert_processor_step s T now) ->
  alert_cooldowns (fst (alert_processor_step s T now)) !! cooldown_key T R
  = Some (now + cooldown_duration rule)%Z.
Proof.
  intros Hnd Hin HR. unfold fired, alert_processor_step in *.
  destruct (active_streams s !! T) as [w |]; [| inversion HR].
  unfold _check_alerts in *.
  pose proof (check_rules_fired_exact T w now (alert_rules s)
                (alert_cooldowns s) R rule Hnd Hin) as H.
  destruct (check_rules _ _ _ _ _). simpl in *. exact (H HR).
Qed.

Lemma cooldown_entry_after_firing_witness :
  alert_cooldowns (fst (alert_processor_step bouncing_service "site-1" 0))
    !! cooldown_key "site-1" "high_bounce_rate"
  = Some (0 + cooldown_duration high_bounce_rate_rule)%Z.
Proof.
  apply (cooldown_entry_after_firing bouncing_service "site-1"
           "high_bounce_rate" high_bounce_rate_rule 0).
  - exact alert_rules_table_nodup.
  - change (("high_bounce_rate", high_bounce_rate_rule) ∈ alert_rules_table).
    do 2 apply list_elem_of_further. apply list_elem_of_here.
  - decide_by_compute.
Defined.

(** X3.  The alerts of one check come in the order of the rule table and
    each rule contributes at most one: their names form a subsequence of
    the table's names. *)
Theorem alerts_follow_rule_order (s : Service) (T : string) (now : Z) :
  fired (alert_processor_step s T now) `sublist_of` map fst (alert_rules s).
Proof.
  unfold fired, alert_processor_step.
  destruct (active_streams s !! T) as [w |]; [| apply sublist_nil_l].
  unfold _check_alerts.
  pose proof (check_rules_sublist T w now (alert_rules s) (alert_cooldowns s))
    as H.
  destruct (check_rules _ _ _ _ _). exact H.
Qed.

(** X4.  Every alert a check emits belongs to a rule of the table whose
    condition holds on the tenant's window at that moment, and carries that
    rule's metric, severity and threshold (0 for a rule without one), the
    window's current value of the metric and the time of the check. *)
Theorem alert_carries_rule_data (s : Service) (T : string) (now : Z)
    (a : AlertData) :
  a ∈ snd (alert_processor_step s T now) ->
  exists w rule,
    active_streams s !! T = Some w /\
    (alert_type a, rule) ∈ alert_rules s /\
    _check_alert_condition w rule now = true /\
    metric_name a = metric rule /\
    alert_severity a = severity rule /\
    current_value a = metrics_get (metrics w) (metric rule) /\
    threshold_value a = default 0%Q (threshold rule) /\
    triggered_at a = now.
Proof.
  intros Ha. unfold alert_processor_step in Ha.
  destruct (active_streams s !! T) as [w |]; [| inversion Ha].
  unfold _check_alerts in Ha.
  pose proof (check_rules_alert_fields T w now (alert_rules s)
                (alert_cooldowns s) a) as H.
  destruct (check_rules _ _ _ _ _). simpl in *.
  destruct (H Ha) as (rule & Hin & Hc & He).
  exists w, rule. split; [reflexivity |]. split; [exact Hin |].
  split; [exact Hc |]. rewrite He. repeat split; reflexivity.
Qed.

Lemma alert_carries_rule_data_witness :
  _create_alert "high_bounce_rate" high_bounce_rate_rule bouncing_window 0
  ∈ snd (alert_processor_step bouncing_service "site-1" 0) /\
  exists w rule,
    active_streams bouncing_service !! "site-1" = Some w /\
    ("high_bounce_rate", rule) ∈ alert_rules bouncing_service /\
    _check_alert_condition w rule 0 = true.
Proof.
  assert (Ha : _create_alert "high_bounce_rate" high_bounce_rate_rule
                 bouncing_window 0
               ∈ snd (alert_processor_step bouncing_service "site-1" 0)).
  { vm_compute. apply list_elem_of_here. }
  split; [exact Ha |].
  destruct (alert_carries_rule_data bouncing_service "site-1" 0 _ Ha)
    as (w & rule & H1 & H2 & H3 & _).
  exists w, rule. split; [exact H1 |]. split; [exact H2 | exact H3].
Defined.

Lemma Qlt_bool_mult_spike (c m : Q) :
  (0 < c)%Q -> (1 < m)%Q -> Qlt_bool (c * m) c = false.
Proof.
  intros Hc Hm. apply Qlt_bool_false_iff. intros H.
  assert (Hle : (c * 1 <= c * m)%Q).
  { apply Qmult_le_l; [exact Hc | apply Qlt_le_weak, Hm]. }
  rewrite Qmult_1_r in Hle. exact (Qlt_not_le _ _ H Hle).
Qed.

Lemma Qlt_bool_mult_drop (c m : Q) :
  (0 < c)%Q -> ~ (1 < m)%Q -> Qlt_bool c (c * m) = false.
Proof.
  intros Hc Hm. apply Qlt_bool_false_iff. intros H.
  apply Qnot_lt_le in Hm.
  assert (Hle : (c * m <= c * 1)%Q).
  { apply Qmult_le_l; [exact Hc | exact Hm]. }
  rewrite Qmult_1_r in Hle. exact (Qlt_not_le _ _ H Hle).
Qed.

(** X5.  A rule evaluated on its multiplier whose metric is neither
    [page_views_per_minute] nor [error_rate] never fires, whatever the
    multiplier and the window: its baseline is the current value itself
    (or 0), so the current value is never above or below its multiple.
    This is the case of [conversion_drop]. *)
Theorem snapshot_baseline_rule_never_fires (stream : StreamingWindow)
    (rule : AlertRule) (now : Z) :
  relative_rule rule ->
  metric rule <> "page_views_per_minute" ->
  metric rule <> "error_rate" ->
  _check_alert_condition stream rule now = false.
Proof.
  intros [Hth [m Hm]] Hpv Her. unfold _check_alert_condition.
  rewrite Hth, Hm. unfold _get_historical_average.
  apply String.eqb_neq in Hpv, Her.
  destruct (minutes_ago _ _); [| reflexivity].
  destruct (later_than _ _) as [[| e relevant] |];
    [reflexivity | | reflexivity].
  unfold historical_average_of. rewrite Hpv, Her.
  destruct (Qlt_bool 0 (metrics_get (metrics stream) (metric rule))) eqn:Ec;
    [| reflexivity].
  apply Qlt_bool_iff in Ec.
  destruct (Qlt_bool 1 m) eqn:Em.
  - apply Qlt_bool_iff in Em. apply Qlt_bool_mult_spike; assumption.
  - apply Qlt_bool_false_iff in Em. apply Qlt_bool_mult_drop; assumption.
Qed.

Lemma snapshot_baseline_rule_never_fires_witness :
  ("conversion_drop", conversion_drop_rule) ∈ alert_rules_table /\
  _check_alert_condition quiet_window conversion_drop_rule (minutes 2) = false.
Proof.
  split; [do 3 apply list_elem_of_further; apply list_elem_of_here |].
  apply (snapshot_baseline_rule_never_fires quiet_window conversion_drop_rule
           (minutes 2)).
  - split; [reflexivity | eexists; reflexivity].
  - discriminate.
  - discriminate.
Defined.

Lemma check_alerts_rules_streams s site now :
  active_streams (fst (alert_processor_step s site now)) = active_streams s /\
  alert_rules (fst (alert_processor_step s site now)) = alert_rules s.
Proof.
  unfold alert_processor_step.
  destruct (active_streams s !! site); [| split; reflexivity].
  unfold _check_alerts. destruct (check_rules _ _ _ _ _). split; reflexivity.
Qed.

(** X6.  With rule names that contain no colon (as the configured ones),
    an alert check for one tenant has no effect on the alerts of another:
    the check for tenant [B] emits the same alerts whether or not a check
    for tenant [A] ran before it. *)
Theorem alert_check_tenant_isolation (s : Service) (A B : string)
    (tA tB : Z) :
  colon_free (alert_rules s) ->
  A <> B ->
  snd (alert_processor_step (fst (alert_processor_step s A tA)) B tB)
  = snd (alert_processor_step s B tB).
Proof.
  intros Hcf Hne.
  destruct (check_alerts_rules_streams s A tA) as [Hst Hru].
  assert (Hag : forall R, R ∈ map fst (alert_rules s) ->
            alert_cooldowns (fst (alert_processor_step s A tA))
              !! cooldown_key B R
            = alert_cooldowns s !! cooldown_key B R).
  { intros R HR. unfold alert_processor_step.
    destruct (active_streams s !! A) as [wA |]; [| reflexivity].
    unfold _check_alerts.
    pose proof (check_rules_other_entry A wA tA (alert_rules s)
                  (alert_cooldowns s) (cooldown_key B R)) as H.
    destruct (check_rules _ _ _ _ _). simpl in *. apply H.
    intros R' HR' He.
    assert (Hc : forall X, X ∈ map fst (alert_rules s) -> has_colon X = false).
    { intros X HX. apply list_elem_of_fmap_1 in HX as ([n r] & -> & Hin).
      unfold colon_free in Hcf. rewrite Forall_forall in Hcf.
      exact (Hcf (n, r) Hin). }
    destruct (cooldown_key_inj_site A B R' R (Hc _ HR') (Hc _ HR) He) as [HAB _].
    exact (Hne HAB). }
  set (s1 := fst (alert_processor_step s A tA)) in *. clearbody s1.
  unfold alert_processor_step. rewrite Hst.
  destruct (active_streams s !! B) as [wB |]; [| reflexivity].
  unfold _check_alerts. rewrite Hru.
  pose proof (check_rules_agree B wB tB (alert_rules s) _ _ Hag) as H.
  destruct (check_rules B wB tB (alert_rules s) (alert_cooldowns s1)).
  destruct (check_rules B wB tB (alert_rules s) (alert_cooldowns s)).
  exact H.
Qed.

Lemma alert_rules_table_colon_free : colon_free alert_rules_table.
Proof. repeat constructor. Qed.

Lemma alert_check_tenant_isolation_witness :
  snd (alert_processor_step
         (fst (alert_processor_step two_tenant_service "site-2" 0))
         "site-1" (minutes 1))
  = snd (alert_processor_step two_tenant_service "site-1" (minutes 1)).
Proof.
  apply (alert_check_tenant_isolation two_tenant_service "site-2" "site-1"
           0 (minutes 1)).
  - exact alert_rules_table_colon_free.
  - discriminate.
Defined.

Lemma apply_op_cooldowns s o :
  is_check o = false -> alert_cooldowns (apply_op s o) = alert_cooldowns s.
Proof.
  destruct o as [site ws now | site | site evs ty now | n now
                | site now | site th now]; simpl; intros Hc;
    try reflexivity; try discriminate.
  - unfold process_realtime_data.
    destruct (make_events site now evs); simpl; [| reflexivity].
    apply queue_put_rules.
  - unfold main_processor_step. destruct (processing_queue s); reflexivity.
Qed.

(** X7.  The cooldown map is written by alert checks only: a sequence of
    operations without an alert check (session starts and stops, ingests,
    dispatches, threshold configurations) leaves every cooldown entry as
    it was, and no operation changes the rule table. *)
Theorem cooldowns_written_by_checks_only (s : Service) (ops : list Op) :
  forallb (fun o => negb (is_check o)) ops = true ->
  alert_cooldowns (run s ops) = alert_cooldowns s /\
  alert_rules (run s ops) = alert_rules s.
Proof.
  revert s. induction ops as [| o ops IH]; intros s H; simpl in *;
    [split; reflexivity |].
  apply andb_true_iff in H as [Ho Hops].
  apply negb_true_iff in Ho.
  destruct (IH (apply_op s o) Hops) as [-> ->].
  split; [apply apply_op_cooldowns, Ho | apply apply_op_rules].
Qed.

Lemma cooldowns_written_by_checks_only_witness :
  alert_cooldowns
    (run (fst (alert_processor_step bouncing_service "site-1" 0))
         [Ingest "site-1" [one_event] "standard" 5%Z; Dispatch 100 5%Z;
          StopSession "site-1"])
  = alert_cooldowns (fst (alert_processor_step bouncing_service "site-1" 0)).
Proof.
  exact (proj1 (cooldowns_written_by_checks_only
                  (fst (alert_processor_step bouncing_service "site-1" 0))
                  [Ingest "site-1" [one_event] "standard" 5%Z;
                   Dispatch 100 5%Z; StopSession "site-1"] eq_refl)).
Defined.

(** * Further properties of dispatch *)

(** ** Groupings *)

Lemma group_append_keys {A} (k : string) (x : A) g k' :
  k' ∈ map fst (group_append k x g) <-> k' = k \/ k' ∈ map fst g.
Proof.
  induction g as [| [k0 xs] g IH]; simpl.
  - rewrite elem_of_cons. split; intros [H | H]; auto; inversion H.
  - destruct (String.eqb_spec k k0) as [-> | Hne]; simpl.
    + rewrite elem_of_cons. tauto.
    + rewrite !elem_of_cons, IH. tauto.
Qed.

Lemma group_append_NoDup {A} (k : string) (x : A) g :
  NoDup (map fst g) -> NoDup (map fst (group_append k x g)).
Proof.
  induction g as [| [k0 xs] g IH]; simpl; intros Hnd.
  - apply NoDup_singleton.
  - apply NoDup_cons in Hnd as [Hk0 Hnd].
    destruct (String.eqb_spec k k0) as [-> | Hne]; simpl.
    + apply NoDup_cons. split; assumption.
    + apply NoDup_cons. split; [| apply IH, Hnd].
      rewrite group_append_keys. intros [-> | H]; [congruence | exact (Hk0 H)].
Qed.

Lemma group_of_append_same {A} (k : string) (x : A) g :
  group_of k (group_append k x g) = group_of k g ++ [x].
Proof.
  induction g as [| [k0 xs] g IH]; simpl.
  - rewrite String.eqb_refl. reflexivity.
  - destruct (String.eqb_spec k k0) as [-> | Hne]; simpl.
    + rewrite String.eqb_refl. reflexivity.
    + apply String.eqb_neq in Hne. rewrite Hne. exact IH.
Qed.

Lemma group_of_append_other {A} (k k' : string) (x : A) g :
  k <> k' -> group_of k' (group_append k x g) = group_of k' g.
Proof.
  intros Hne. induction g as [| [k0 xs] g IH]; simpl.
  - assert (E : String.eqb k' k = false) by (apply String.eqb_neq; congruence).
    rewrite E. reflexivity.
  - destruct (String.eqb_spec k k0) as [-> | Hne0]; simpl.
    + assert (E : String.eqb k' k0 = false) by (apply String.eqb_neq; congruence).
      rewrite E. reflexivity.
    + destruct (String.eqb k' k0); [reflexivity | exact IH].
Qed.

Lemma group_append_nonempty {A} (k : string) (x : A) g :
  Forall (fun p => snd p <> []) g ->
  Forall (fun p => snd p <> []) (group_append k x g).
Proof.
  induction 1 as [| [k0 xs] g Hx Hg IH]; simpl.
  - repeat constructor. discriminate.
  - destruct (String.eqb k k0); constructor; simpl in *; try assumption.
    destruct xs; discriminate.
Qed.

Section Grouping.
Context {A : Type} (key : A -> option string).

Lemma group_by_fold (l : list A) :
  group_by key l = fold_left (group_step key) l [].
Proof. reflexivity. Qed.

Lemma group_fold_of (k : string) (l : list A) : forall g,
  group_of k (fold_left (group_step key) l g)
  = group_of k g ++ List.filter (has_key key k) l.
Proof.
  induction l as [| x l IH]; intros g; simpl; [rewrite app_nil_r; reflexivity |].
  rewrite IH. unfold group_step, has_key.
  destruct (key x) as [k' |]; [| reflexivity].
  destruct (String.eqb_spec k' k) as [-> | Hne].
  - rewrite group_of_append_same, <- app_assoc. reflexivity.
  - rewrite group_of_append_other by exact Hne. reflexivity.
Qed.

Lemma group_fold_NoDup (l : list A) : forall g,
  NoDup (map fst g) -> NoDup (map fst (fold_left (group_step key) l g)).
Proof.
  induction l as [| x l IH]; intros g Hnd; simpl; [exact Hnd |].
  apply IH. unfold group_step.
  destruct (key x); [apply group_append_NoDup, Hnd | exact Hnd].
Qed.

Lemma group_fold_nonempty (l : list A) : forall g,
  Forall (fun p => snd p <> []) g ->
  Forall (fun p => snd p <> []) (fold_left (group_step key) l g).
Proof.
  induction l as [| x l IH]; intros g Hg; simpl; [exact Hg |].
  apply IH. unfold group_step.
  destruct (key x); [apply group_append_nonempty, Hg | exact Hg].
Qed.
End Grouping.

Lemma group_of_in {A} (k : string) (xs : list A) g :
  NoDup (map fst g) -> (k, xs) ∈ g -> group_of k g = xs.
Proof.
  induction g as [| [k0 ys] g IH]; simpl; intros Hnd Hin; [inversion Hin |].
  apply NoDup_cons in Hnd as [Hk0 Hnd].
  apply elem_of_cons in Hin as [Heq | Hin].
  - inversion Heq; subst. rewrite String.eqb_refl. reflexivity.
  - destruct (String.eqb_spec k k0) as [-> | Hne]; [| apply IH; assumption].
    exfalso. apply Hk0. exact (list_elem_of_fmap_2 fst g (k0, xs) Hin).
Qed.

Lemma group_of_absent {A} (k : string) (g : list (string * list A)) :
  k ∉ map fst g -> group_of k g = [].
Proof.
  induction g as [| [k0 ys] g IH]; simpl; intros Hk; [reflexivity |].
  destruct (String.eqb_spec k k0) as [-> | Hne].
  - exfalso. apply Hk. left.
  - apply IH. intros H. apply Hk. right. exact H.
Qed.

Lemma group_of_present {A} (k : string) (g : list (string * list A)) :
  NoDup (map fst g) -> Forall (fun p => snd p <> []) g ->
  k ∈ map fst g -> (k, group_of k g) ∈ g /\ group_of k g <> [].
Proof.
  intros Hnd Hne Hk.
  apply list_elem_of_fmap_1 in Hk as ([k0 xs] & -> & Hin). simpl.
  rewrite (group_of_in k0 xs g Hnd Hin). split; [exact Hin |].
  rewrite Forall_forall in Hne. exact (Hne _ Hin).
Qed.

(** ** Windows as the most recent events *)

Lemma keep_last_all {A} (n : nat) (l : list A) :
  (length l <= n)%nat -> keep_last n l = l.
Proof.
  intros H. unfold keep_last.
  replace (length l - n)%nat with 0%nat by lia. reflexivity.
Qed.

Lemma keep_last_app {A} (n : nat) (l xs : list A) :
  keep_last n (keep_last n l ++ xs) = keep_last n (l ++ xs).
Proof.
  unfold keep_last.
  rewrite !length_app, length_drop.
  destruct (Nat.le_gt_cases (length l) n) as [Hle | Hgt].
  - replace (length l - n)%nat with 0%nat by lia. rewrite drop_0.
    f_equal. lia.
  - replace (length l - (length l - n) + length xs - n)%nat
      with (length xs) by lia.
    rewrite <- (drop_app_le l xs) by lia.
    rewrite drop_drop. f_equal. lia.
Qed.

Lemma deque_append_items (d : deque) (e : RealtimeEvent) :
  (length (items d) <= maxlen d)%nat ->
  items (deque_append d e) = keep_last (maxlen d) (items d ++ [e]).
Proof.
  intros Hle. unfold deque_append, keep_last. simpl.
  rewrite length_app. simpl.
  destruct (Nat.ltb_spec (maxlen d) (length (items d) + 1)) as [Hlt | Hge].
  - replace (length (items d) + 1 - maxlen d)%nat with 1%nat by lia.
    destruct (items d ++ [e]); reflexivity.
  - replace (length (items d) + 1 - maxlen d)%nat with 0%nat by lia.
    reflexivity.
Qed.

Lemma append_events_items (xs : list RealtimeEvent) : forall w,
  (length (items (events w)) <= maxlen (events w))%nat ->
  maxlen (events (fold_left append_event xs w)) = maxlen (events w) /\
  items (events (fold_left append_event xs w))
  = keep_last (maxlen (events w)) (items (events w) ++ xs).
Proof.
  induction xs as [| x xs IH]; intros w Hle; simpl.
  - split; [reflexivity |].
    rewrite app_nil_r, keep_last_all; [reflexivity | exact Hle].
  - destruct (IH (append_event w x)) as [Hm Hi].
    { simpl. apply deque_append_length, Hle. }
    split; [exact Hm |]. rewrite Hi.
    change (items (events (append_event w x)))
      with (items (deque_append (events w) x)).
    change (maxlen (events (append_event w x))) with (maxlen (events w)).
    rewrite deque_append_items by exact Hle.
    rewrite keep_last_app, <- app_assoc. reflexivity.
Qed.

(** ** One batch *)

Lemma process_site_events_other now st g site :
  fst g <> site -> process_site_events now st g !! site = st !! site.
Proof.
  intros Hne. unfold process_site_events.
  destruct (st !! g.1); [| reflexivity].
  apply lookup_insert_ne. exact Hne.
Qed.

Lemma process_groups_absent now site gs : forall st,
  site ∉ map fst gs ->
  fold_left (process_site_events now) gs st !! site = st !! site.
Proof.
  induction gs as [| g gs IH]; intros st Hs; simpl; [reflexivity |].
  rewrite IH.
  - apply process_site_events_other. intros He. apply Hs.
    simpl. rewrite He. left.
  - intros H. apply Hs. right. exact H.
Qed.

Lemma process_groups_present now site gs : forall st,
  NoDup (map fst gs) ->
  site ∈ map fst gs ->
  fold_left (process_site_events now) gs st !! site
  = process_window now (group_of site gs) <$> st !! site.
Proof.
  induction gs as [| [k xs] gs IH]; intros st Hnd Hs; simpl in *;
    [inversion Hs |].
  apply NoDup_cons in Hnd as [Hk Hnd].
  destruct (String.eqb_spec site k) as [-> | Hne].
  - rewrite process_groups_absent by exact Hk.
    unfold process_site_events. simpl.
    destruct (st !! k) as [w |] eqn:Ew; simpl.
    + rewrite lookup_insert_eq. reflexivity.
    + exact Ew.
  - rewrite IH; [| exact Hnd |].
    + rewrite process_site_events_other by (simpl; congruence). reflexivity.
    + apply elem_of_cons in Hs as [Hs | Hs]; [congruence | exact Hs].
Qed.

Lemma events_by_site_of (site : string) (batch : list RealtimeEvent) :
  group_of site (group_by (fun e => Some (site_id e)) batch)
  = events_of site batch.
Proof.
  rewrite group_by_fold, group_fold_of. reflexivity.
Qed.

Lemma events_by_site_keys (site : string) (batch : list RealtimeEvent) :
  site ∈ map fst (group_by (fun e => Some (site_id e)) batch)
  <-> events_of site batch <> [].
Proof.
  pose proof (group_fold_NoDup (fun e => Some (site_id e)) batch []
                (NoDup_nil_2)) as Hnd.
  pose proof (group_fold_nonempty (fun e => Some (site_id e)) batch []
                (Forall_nil_2 _)) as Hne.
  rewrite <- events_by_site_of. rewrite group_by_fold. split.
  - intros H. exact (proj2 (group_of_present site _ Hnd Hne H)).
  - intros H. destruct (decide (site ∈ map fst
        (fold_left (group_step (fun e => Some (site_id e))) batch [])))
      as [Hin | Hout]; [exact Hin |].
    exfalso. apply H. apply group_of_absent. exact Hout.
Qed.

(** The window of a tenant that has events in the batch. *)
Lemma process_batch_lookup (s : Service) (events_batch : list RealtimeEvent)
    (now : Z) (site : string) :
  events_of site events_batch <> [] ->
  active_streams (_process_events_batch s events_batch now) !! site
  = process_window now (events_of site events_batch)
      <$> active_streams s !! site.
Proof.
  intros Hev. unfold _process_events_batch. simpl.
  rewrite process_groups_present.
  - rewrite events_by_site_of. reflexivity.
  - apply group_fold_NoDup. apply NoDup_nil_2.
  - apply events_by_site_keys. exact Hev.
Qed.


(** A batch without events for a tenant, or for a tenant without a
    window, leaves the tenant's entry as it is. *)
Lemma batch_leaves_other_tenants_aux (s : Service)
    (events_batch : list RealtimeEvent) (now : Z) (site : string) :
  events_of site events_batch = [] \/ active_streams s !! site = None ->
  fold_left (process_site_events now)
    (group_by (fun e => Some (site_id e)) events_batch) (active_streams s)
  !! site = active_streams s !! site.
Proof.
  intros H.
  destruct (decide (site ∈ map fst
              (group_by (fun e => Some (site_id e)) events_batch)))
    as [Hin | Hout].
  - rewrite process_groups_present; [| | exact Hin].
    + destruct H as [Hev | Hn]; [| rewrite Hn; reflexivity].
      apply events_by_site_keys in Hin. contradiction.
    + apply group_fold_NoDup. apply NoDup_nil_2.
  - apply process_groups_absent. exact Hout.
Qed.

(** X9.  A batch leaves alone every tenant it has no event for: the
    window (or its absence) is exactly as before.  In particular events of
    a tenant without an active session create no window. *)
Theorem batch_leaves_other_tenants (s : Service)
    (events_batch : list RealtimeEvent) (now : Z) (site : string) :
  (events_of site events_batch = [] \/ active_streams s !! site = None) ->
  active_streams (_process_events_batch s events_batch now) !! site
  = active_streams s !! site.
Proof.
  intros H. unfold _process_events_batch. simpl.
  apply batch_leaves_other_tenants_aux. exact H.
Qed.

Lemma started_window_lookup :
  active_streams started_service !! "site-1" = Some started_window.
Proof. vm_compute. reflexivity. Qed.


Lemma batch_leaves_other_tenants_witness :
  active_streams (_process_events_batch started_service mixed_batch 5)
    !! "site-2" = None.
Proof.
  rewrite (batch_leaves_other_tenants started_service mixed_batch 5 "site-2").
  - reflexivity.
  - right. reflexivity.
Defined.

(** ** Which operations create and remove windows *)

Lemma process_site_events_dom now st g :
  dom (process_site_events now st g) = dom st.
Proof.
  unfold process_site_events.
  destruct (st !! g.1) as [w |] eqn:Ew; [| reflexivity].
  apply dom_insert_lookup_L. rewrite Ew. eexists. reflexivity.
Qed.

Lemma process_groups_dom now gs : forall st,
  dom (fold_left (process_site_events now) gs st) = dom st.
Proof.
  induction gs as [| g gs IH]; intros st; simpl; [reflexivity |].
  rewrite IH. apply process_site_events_dom.
Qed.

Lemma apply_op_dom s o :
  is_session_op o = false ->
  dom (active_streams (apply_op s o)) = dom (active_streams s).
Proof.
  destruct o as [site ws now | site | site evs ty now | n now
                | site now | site th now]; simpl; intros Ho;
    try discriminate; try reflexivity.
  - unfold process_realtime_data.
    destruct (make_events site now evs); simpl; [| reflexivity].
    rewrite queue_put_streams. reflexivity.
  - unfold main_processor_step.
    destruct (processing_queue s); [reflexivity |].
    apply process_groups_dom.
  - unfold alert_processor_step.
    destruct (active_streams s !! site); [| reflexivity].
    rewrite check_alerts_streams. reflexivity.
Qed.

(** X10.  Only session starts and stops change which tenants have a
    window: ingests, dispatches, alert checks and threshold configurations
    neither create nor remove one.  So events that arrive after a tenant's
    session stopped never bring its window back. *)
Theorem windows_change_with_sessions_only (s : Service) (ops : list Op) :
  forallb (fun o => negb (is_session_op o)) ops = true ->
  dom (active_streams (run s ops)) = dom (active_streams s).
Proof.
  revert s. induction ops as [| o ops IH]; intros s H; simpl in *;
    [reflexivity |].
  apply andb_true_iff in H as [Ho Hops]. apply negb_true_iff in Ho.
  rewrite (IH _ Hops). apply apply_op_dom, Ho.
Qed.

Lemma windows_change_with_sessions_only_witness :
  dom (active_streams
         (run (stop_realtime_analysis started_service "site-1")
              [Ingest "site-1" [one_event] "standard" 7%Z; Dispatch 100 8%Z;
               CheckAlerts "site-1" 9%Z]))
  = dom (active_streams (stop_realtime_analysis started_service "site-1")).
Proof.
  exact (windows_change_with_sessions_only
           (stop_realtime_analysis started_service "site-1")
           [Ingest "site-1" [one_event] "standard" 7%Z; Dispatch 100 8%Z;
            CheckAlerts "site-1" 9%Z] eq_refl).
Defined.

(** X11.  One cycle of the dispatcher removes [max(1, batch size)]
    events from the front of the queue (all of them when fewer are queued),
    leaves the rest in order, and processes exactly the removed events as
    one batch; a batch size of 0 or less still takes one event. *)
Theorem dispatcher_takes_queue_prefix (n : Z) (s : Service) (now : Z) :
  processing_queue (main_processor_step n s now)
  = drop (Z.to_nat (Z.max 1 n)) (processing_queue s) /\
  active_streams (main_processor_step n s now)
  = active_streams
      (_process_events_batch s
         (take (Z.to_nat (Z.max 1 n)) (processing_queue s)) now).
Proof.
  unfold main_processor_step.
  destruct (processing_queue s) as [| e q] eqn:Eq.
  - rewrite drop_nil, take_nil. split; [exact Eq | reflexivity].
  - assert (E : Z.to_nat (Z.max 1 n) = S (Z.to_nat (n - 1))) by lia.
    rewrite E. simpl. split; reflexivity.
Qed.

(** X12.  Starting a session for a tenant that already has a window keeps
    the window's events, metrics and update time; only the reference to the
    websocket manager is replaced.  No other tenant, and nothing else of
    the service, is touched. *)
Theorem start_keeps_existing_window (s : Service) (site : string)
    (ws : nat) (now : Z) (w : StreamingWindow) :
  active_streams s !! site = Some w ->
  exists w',
    active_streams (start_realtime_analysis s site ws now) !! site = Some w' /\
    events w' = events w /\ metrics w' = metrics w /\
    last_update w' = last_update w /\ websocket_manager w' = Some ws /\
    forall other, other <> site ->
      active_streams (start_realtime_analysis s site ws now) !! other
      = active_streams s !! other.
Proof.
  intros Hw. unfold start_realtime_analysis. simpl. rewrite Hw.
  eexists. split; [apply lookup_insert_eq |]. simpl.
  repeat split. intros other Hne. apply lookup_insert_ne. congruence.
Qed.

Lemma start_keeps_existing_window_witness :
  exists w',
    active_streams (start_realtime_analysis bouncing_service "site-1" 7 99)
      !! "site-1" = Some w' /\
    events w' = events bouncing_window /\ metrics w' = metrics bouncing_window.
Proof.
  destruct (start_keeps_existing_window bouncing_service "site-1" 7 99
              bouncing_window bouncing_window_lookup)
    as (w' & H1 & H2 & H3 & _).
  exists w'. split; [exact H1 |]. split; [exact H2 | exact H3].
Defined.

(** * Further properties of ingest *)

Lemma make_events_site site now evs : forall es,
  make_events site now evs = Some es ->
  Forall (fun e => site_id e = site) es.
Proof.
  induction evs as [| ev evs IH]; intros es H; simpl in H.
  - inversion H. constructor.
  - destruct (make_event site now ev) as [e |] eqn:Ee; [| discriminate].
    destruct (make_events site now evs) as [es' |]; [| discriminate].
    inversion H; subst. constructor; [| apply IH; reflexivity].
    unfold make_event in Ee.
    destruct (raw_timestamp ev); inversion Ee; reflexivity.
Qed.

Lemma events_of_own site es :
  Forall (fun e => site_id e = site) es -> events_of site es = es.
Proof.
  unfold events_of.
  induction 1 as [| e es He _ IH]; simpl; [reflexivity |].
  rewrite He, String.eqb_refl, IH. reflexivity.
Qed.

Lemma count_distinct_le (xs : list string) :
  (count_distinct xs <= length xs)%nat.
Proof.
  unfold count_distinct.
  induction xs as [| x xs IH]; simpl; [lia |].
  destruct (decide_rel elem_of x xs); simpl; lia.
Qed.

Lemma omap_length_le {A B} (f : A -> option B) (l : list A) :
  (length (omap f l) <= length l)%nat.
Proof.
  induction l as [| x l IH]; [simpl; lia |].
  change (omap f (x :: l))
    with (match f x with Some y => y :: omap f l | None => omap f l end).
  destruct (f x); simpl; lia.
Qed.



(** X15.  Ingest and dispatch compose: for a tenant with a window, when
    the queue is empty, every submitted event parses and the batch size
    covers them, one dispatcher cycle after the ingest leaves the window
    with the most recent [maxlen] of its previous events followed by the
    submitted ones, in submission order, and an empty queue. *)
Theorem ingest_then_dispatch (s : Service) (site : string)
    (event_data : list RawEvent) (analysis_type : string) (t1 t2 : Z)
    (n : Z) (w : StreamingWindow) (es : list RealtimeEvent) :
  active_streams s !! site = Some w ->
  (length (items (events w)) <= maxlen (events w))%nat ->
  processing_queue s = [] ->
  make_events site t1 event_data = Some es ->
  es <> [] ->
  (Z.of_nat (length es) <= n)%Z ->
  let s' :=
    main_processor_step n
      (fst (process_realtime_data s site event_data analysis_type t1)) t2 in
  processing_queue s' = [] /\
  exists w',
    active_streams s' !! site = Some w' /\
    items (events w') = keep_last (maxlen (events w)) (items (events w) ++ es) /\
    last_update w' = t2.
Proof.
  intros Hw Hle Hq Hes Hne Hn s'. subst s'.
  pose proof (events_of_own site es (make_events_site _ _ _ _ Hes)) as Hown.
  set (s1 := fst (process_realtime_data s site event_data analysis_type t1)).
  assert (Hs1 : active_streams s1 = active_streams s /\
                processing_queue s1 = es).
  { subst s1. unfold process_realtime_data. rewrite Hes. simpl.
    rewrite queue_put_all. simpl. rewrite Hq. split; reflexivity. }
  destruct Hs1 as [Hst1 Hq1]. clearbody s1.
  unfold main_processor_step. rewrite Hq1.
  destruct es as [| e es]; [congruence |].
  assert (Hlen : (length es <= Z.to_nat (n - 1))%nat) by (simpl in Hn; lia).
  rewrite take_ge, drop_ge by exact Hlen.
  split; [reflexivity |].
  rewrite process_batch_lookup by (rewrite Hown; discriminate).
  cbn [active_streams]. rewrite Hst1, Hw, Hown.
  eexists. split; [reflexivity |].
  destruct (append_events_items (e :: es) w Hle) as [_ Hi].
  split; [exact Hi | reflexivity].
Qed.

Lemma ingest_then_dispatch_witness :
  exists w',
    active_streams
      (main_processor_step 100
         (fst (process_realtime_data started_service "site-1"
                 [one_event; bare_event] "standard" 0)) 1)
      !! "site-1" = Some w' /\
    length (items (events w')) = 2%nat.
Proof.
  destruct (ingest_then_dispatch started_service "site-1"
              [one_event; bare_event] "standard" 0 1 100 started_window
              _ started_window_lookup ltac:(vm_compute; lia) eq_refl eq_refl
              ltac:(discriminate) ltac:(vm_compute; discriminate))
    as [_ (w' & H1 & H2 & _)].
  exists w'. split; [exact H1 |]. rewrite H2. reflexivity.
Defined.

(** * Further properties of the metrics *)




Lemma filter_all {A} (f : A -> bool) (l : list A) :
  Forall (fun x => f x = true) l -> List.filter f l = l.
Proof.
  induction 1 as [| x l Hx _ IH]; simpl; [reflexivity |].
  rewrite Hx, IH. reflexivity.
Qed.





Lemma Qnat_le (a b : nat) : (a <= b)%nat -> (Qnat a <= Qnat b)%Q.
Proof. intros H. unfold Qnat. rewrite <- Zle_Qle. lia. Qed.

Lemma metrics_of_recent_counts_ok recent m :
  (length recent <= 1000)%nat -> counts_ok (metrics_of_recent recent m).
Proof.
  intros Hlen.
  destruct (metrics_of_recent_counts recent m) as (He & Hp & Hu & Ha).
  unfold counts_ok. rewrite He, Hp, Hu, Ha.
  split; [change 0%Q with (Qnat 0); apply Qnat_le; lia |].
  split; [apply Qnat_le, filter_length_bound |].
  split.
  { apply Qnat_le. etransitivity; [apply count_distinct_le | apply omap_length_le]. }
  split.
  { apply Qnat_le. etransitivity; [apply count_distinct_le | apply omap_length_le]. }
  change 1000%Q with (Qnat 1000). apply Qnat_le. lia.
Qed.

Lemma updated_metrics_counts_ok es m now :
  (length es <= 1000)%nat -> counts_ok m ->
  counts_ok (updated_metrics es m now).
Proof.
  intros Hlen Hm. unfold updated_metrics.
  destruct (minutes_ago now 1) as [bound |]; [| exact Hm].
  destruct (later_than bound es) as [recent |] eqn:Er; [| exact Hm].
  apply later_than_some in Er as [_ ->].
  apply metrics_of_recent_counts_ok.
  pose proof (filter_length_bound (fun e => (bound <? timestamp e)%Z) es)
    as Hrecent.
  unfold events_after. lia.
Qed.

Lemma process_site_events_counts now st g :
  map_Forall (fun _ w => window_counts_ok w) st ->
  map_Forall (fun _ w => window_counts_ok w) (process_site_events now st g).
Proof.
  intros Hst. unfold process_site_events.
  destruct (st !! g.1) as [w |] eqn:Ew; [| exact Hst].
  apply map_Forall_insert_2; [| exact Hst].
  destruct (Hst _ _ Ew) as [Hw Hc].
  pose proof (append_events_ok g.2 w Hw) as Hw'.
  split; [exact Hw' |]. simpl.
  apply updated_metrics_counts_ok; [apply Hw' |].
  rewrite append_events_metrics. exact Hc.
Qed.

Lemma process_groups_counts now gs : forall st,
  map_Forall (fun _ w => window_counts_ok w) st ->
  map_Forall (fun _ w => window_counts_ok w)
    (fold_left (process_site_events now) gs st).
Proof.
  induction gs as [| g gs IH]; intros st Hst; simpl; [exact Hst |].
  apply IH, process_site_events_counts, Hst.
Qed.

Lemma fresh_counts_ok : counts_ok ∅.
Proof. repeat split; vm_compute; discriminate. Qed.

Lemma apply_op_counts s o :
  map_Forall (fun _ w => window_counts_ok w) (active_streams s) ->
  map_Forall (fun _ w => window_counts_ok w) (active_streams (apply_op s o)).
Proof.
  intros Hs. destruct o as [site ws now | site | site evs ty now | n now
                           | site now | site th now]; simpl.
  - apply map_Forall_insert_2; [| exact Hs].
    destruct (active_streams s !! site) as [w |] eqn:Ew.
    + exact (Hs _ _ Ew).
    + split; [split; simpl; lia | apply fresh_counts_ok].
  - apply map_Forall_delete, Hs.
  - unfold process_realtime_data.
    destruct (make_events site now evs); simpl; [| exact Hs].
    rewrite queue_put_streams. exact Hs.
  - unfold main_processor_step.
    destruct (processing_queue s); [exact Hs |].
    apply process_groups_counts. exact Hs.
  - unfold alert_processor_step.
    destruct (active_streams s !! site); [| exact Hs].
    rewrite check_alerts_streams. exact Hs.
  - exact Hs.
Qed.

Lemma run_counts ops : forall s,
  map_Forall (fun _ w => window_counts_ok w) (active_streams s) ->
  map_Forall (fun _ w => window_counts_ok w) (active_streams (run s ops)).
Proof.
  induction ops as [| o ops IH]; intros s Hs; simpl; [exact Hs |].
  apply IH, apply_op_counts, Hs.
Qed.

(** X17.  After any sequence of operations the count metrics of every
    window are consistent: page views, unique sessions and active users
    per minute are each at most the events per minute, and the events per
    minute never exceed 1000, the capacity of the window, however many
    events really arrived. *)
Theorem count_metrics_consistent (ops : list Op) (site : string)
    (w : StreamingWindow) :
  active_streams (run initialized_service ops) !! site = Some w ->
  (0 <= metrics_get (metrics w) "page_views_per_minute")%Q /\
  (metrics_get (metrics w) "page_views_per_minute"
   <= metrics_get (metrics w) "events_per_minute")%Q /\
  (metrics_get (metrics w) "unique_sessions"
   <= metrics_get (metrics w) "events_per_minute")%Q /\
  (metrics_get (metrics w) "active_users"
   <= metrics_get (metrics w) "events_per_minute")%Q /\
  (metrics_get (metrics w) "events_per_minute" <= 1000)%Q.
Proof.
  intros Hw.
  assert (H : window_counts_ok w).
  { refine (run_counts ops initialized_service _ site w Hw).
    apply map_Forall_empty. }
  exact (proj2 H).
Qed.

Lemma bouncing_ops_lookup :
  active_streams (run initialized_service bouncing_ops) !! "site-1"
  = Some bouncing_window.
Proof. vm_compute. reflexivity. Qed.

Lemma count_metrics_consistent_witness :
  active_streams (run initialized_service bouncing_ops) !! "site-1"
  = Some bouncing_window /\
  (metrics_get (metrics bouncing_window) "unique_sessions"
   <= metrics_get (metrics bouncing_window) "events_per_minute")%Q.
Proof.
  split; [exact bouncing_ops_lookup |].
  exact (proj1 (proj2 (proj2
    (count_metrics_consistent bouncing_ops "site-1" bouncing_window
       bouncing_ops_lookup)))).
Defined.

(** * Further properties of forecasts and aggregation *)

(** ** Binary64 rounding *)

Lemma round_half_even_floor (x : Q) :
  (Qfloor x <= round_half_even x <= Qfloor x + 1)%Z.
Proof.
  unfold round_half_even.
  destruct (x - inject_Z (Qfloor x) ?= 1 # 2)%Q; [| lia | lia].
  destruct (Z.even (Qfloor x)); lia.
Qed.

Lemma round_half_even_mono (x y : Q) :
  (x <= y)%Q -> (round_half_even x <= round_half_even y)%Z.
Proof.
  intros Hxy. pose proof (Qfloor_resp_le x y Hxy) as Hf.
  destruct (Z.eq_dec (Qfloor x) (Qfloor y)) as [Heq | Hne].
  - unfold round_half_even. rewrite <- Heq.
    destruct (Qcompare_spec (x - inject_Z (Qfloor x)) (1 # 2)) as [Hx | Hx | Hx];
      destruct (Qcompare_spec (y - inject_Z (Qfloor x)) (1 # 2)) as [Hy | Hy | Hy];
      try (destruct (Z.even (Qfloor x)); lia); try lia; exfalso; lra.
  - pose proof (round_half_even_floor x). pose proof (round_half_even_floor y).
    lia.
Qed.

Lemma round_half_even_Z (n : Z) : round_half_even (inject_Z n) = n.
Proof.
  unfold round_half_even. rewrite Qfloor_Z.
  destruct (Qcompare_spec (inject_Z n - inject_Z n) (1 # 2)) as [H | H | H];
    [exfalso; lra | reflexivity | exfalso; lra].
Qed.

Lemma two_pos (e : Z) : (0 < 2 ^ e)%Q.
Proof. apply Qpower_0_lt. reflexivity. Qed.

Lemma two_plus (a b : Z) : (2 ^ (a + b) == 2 ^ a * 2 ^ b)%Q.
Proof. apply Qpower_plus. discriminate. Qed.

Lemma two_Z (a : Z) : (0 <= a)%Z -> (inject_Z (2 ^ a) == 2 ^ a)%Q.
Proof. intros Ha. apply (Zpower_Qpower 2 a Ha). Qed.

Lemma two_le (a b : Z) : (a <= b)%Z -> (2 ^ a <= 2 ^ b)%Q.
Proof. intros H. apply Qpower_le_compat_l; [exact H | discriminate]. Qed.

Lemma two_lt_inv (a b : Z) : (2 ^ a < 2 ^ b)%Q -> (a < b)%Z.
Proof. intros H. apply (Qpower_lt_compat_l_inv 2); [exact H | reflexivity]. Qed.

Lemma binade_spec (x : Q) :
  (0 < x)%Q -> (2 ^ binade x <= x)%Q /\ (x < 2 ^ (binade x + 1))%Q.
Proof.
  intros Hx. destruct x as [n d]. unfold binade. cbn [Qnum Qden].
  assert (Hn : (0 < n)%Z).
  { unfold Qlt in Hx. simpl in Hx. lia. }
  set (ln := Z.log2 n). set (ld := Z.log2 (Z.pos d)).
  destruct (Z.log2_spec n Hn) as [Hn1 Hn2]. fold ln in Hn1, Hn2.
  destruct (Z.log2_spec (Z.pos d) ltac:(lia)) as [Hd1 Hd2].
  fold ld in Hd1, Hd2.
  assert (Hln : (0 <= ln)%Z) by apply Z.log2_nonneg.
  assert (Hld : (0 <= ld)%Z) by apply Z.log2_nonneg.
  assert (Hx_eq : (n # d == inject_Z n / inject_Z (Z.pos d))%Q).
  { rewrite (Qmake_Qdiv n d). reflexivity. }
  assert (Hdpos : (0 < inject_Z (Z.pos d))%Q) by reflexivity.
  assert (Hlow : (2 ^ (ln - ld - 1) <= n # d)%Q).
  { rewrite Hx_eq. apply Qle_shift_div_l; [exact Hdpos |].
    apply Qle_trans with (2 ^ (ln - ld - 1) * 2 ^ (ld + 1))%Q.
    - apply Qmult_le_l; [apply two_pos |].
      rewrite <- two_Z by lia. rewrite <- Zle_Qle.
      replace (ld + 1)%Z with (Z.succ ld) by lia. lia.
    - rewrite <- two_plus. replace (ln - ld - 1 + (ld + 1))%Z with ln by lia.
      rewrite <- two_Z by lia. rewrite <- Zle_Qle. exact Hn1. }
  assert (Hhigh : (n # d < 2 ^ (ln - ld + 1))%Q).
  { rewrite Hx_eq. apply Qlt_shift_div_r; [exact Hdpos |].
    apply Qlt_le_trans with (2 ^ (ln + 1))%Q.
    - rewrite <- two_Z by lia. rewrite <- Zlt_Qlt.
      replace (ln + 1)%Z with (Z.succ ln) by lia. exact Hn2.
    - replace (ln + 1)%Z with (ln - ld + 1 + ld)%Z by lia.
      rewrite two_plus. apply Qmult_le_l; [apply two_pos |].
      rewrite <- two_Z by lia. rewrite <- Zle_Qle. exact Hd1. }
  destruct (Qle_bool (2 ^ (ln - ld)) (n # d)) eqn:E.
  - apply Qle_bool_iff in E. split; [exact E | exact Hhigh].
  - split; [exact Hlow |].
    replace (ln - ld - 1 + 1)%Z with (ln - ld)%Z by lia.
    apply Qnot_le_lt. intros H. apply Qle_bool_iff in H. congruence.
Qed.

Lemma binade_mono (x y : Q) :
  (0 < x)%Q -> (x <= y)%Q -> (binade x <= binade y)%Z.
Proof.
  intros Hx Hxy.
  destruct (binade_spec x Hx) as [Hx1 _].
  destruct (binade_spec y ltac:(lra)) as [_ Hy2].
  assert (H : (binade x < binade y + 1)%Z); [| lia].
  apply two_lt_inv. lra.
Qed.

Lemma round_positive_mono (x y : Q) :
  (0 < x)%Q -> (x <= y)%Q -> (round_positive x <= round_positive y)%Q.
Proof.
  intros Hx Hxy. assert (Hy : (0 < y)%Q) by lra.
  pose proof (binade_mono x y Hx Hxy) as Hb.
  destruct (binade_spec x Hx) as [_ Hx2].
  destruct (binade_spec y Hy) as [Hy1 _].
  unfold round_positive.
  set (ex := Z.max (binade x - 52) (-1074)).
  set (ey := Z.max (binade y - 52) (-1074)).
  pose proof (two_pos ex) as Hex. pose proof (two_pos ey) as Hey.
  destruct (Z.eq_dec ex ey) as [Heq | Hne].
  - rewrite <- Heq. apply Qmult_le_compat_r; [| lra].
    rewrite <- Zle_Qle. apply round_half_even_mono.
    apply Qmult_le_compat_r; [exact Hxy |].
    apply Qlt_le_weak, Qinv_lt_0_compat, Hex.
  - assert (Hlt : (ex < ey)%Z) by lia.
    assert (Hey' : ey = (binade y - 52)%Z) by lia.
    assert (Hbx : (binade x + 1 <= ey + 52)%Z) by lia.
    set (j := (ey + 52 - ex)%Z).
    assert (Hj : (0 <= j)%Z) by lia.
    apply Qle_trans with (2 ^ (ey + 52))%Q.
    + replace (ey + 52)%Z with (j + ex)%Z by lia. rewrite two_plus.
      apply Qmult_le_compat_r; [| lra].
      rewrite <- (two_Z j Hj). rewrite <- Zle_Qle.
      rewrite <- (round_half_even_Z (2 ^ j)).
      apply round_half_even_mono. rewrite (two_Z j Hj).
      apply Qle_shift_div_r; [exact Hex |].
      rewrite <- two_plus. replace (j + ex)%Z with (ey + 52)%Z by lia.
      apply Qlt_le_weak. apply Qlt_le_trans with (2 ^ (binade x + 1))%Q;
        [exact Hx2 | apply two_le, Hbx].
    + replace (ey + 52)%Z with (52 + ey)%Z by lia. rewrite two_plus.
      apply Qmult_le_compat_r; [| lra].
      rewrite <- (two_Z 52 ltac:(lia)). rewrite <- Zle_Qle.
      rewrite <- (round_half_even_Z (2 ^ 52)).
      apply round_half_even_mono. rewrite (two_Z 52 ltac:(lia)).
      apply Qle_shift_div_l; [exact Hey |].
      rewrite <- two_plus. replace (52 + ey)%Z with (binade y) by lia.
      exact Hy1.
Qed.

Lemma round_positive_nonneg (x : Q) : (0 <= x)%Q -> (0 <= round_positive x)%Q.
Proof.
  intros Hx. unfold round_positive.
  set (e := Z.max (binade x - 52) (-1074)). pose proof (two_pos e) as He.
  apply Qmult_le_0_compat; [| lra].
  change 0%Q with (inject_Z 0). rewrite <- Zle_Qle.
  rewrite <- (round_half_even_Z 0). apply round_half_even_mono.
  apply Qle_shift_div_l; [exact He |].
  change (inject_Z 0) with 0%Q. rewrite Qmult_0_l. exact Hx.
Qed.

(** Rounding is monotone on the non-negative rationals. *)
Lemma round_binary64_mono (x y : Q) :
  (0 <= x)%Q -> (x <= y)%Q -> (round_binary64 x <= round_binary64 y)%Q.
Proof.
  intros Hx Hxy. unfold round_binary64.
  destruct x as [nx dx], y as [ny dy]. cbn [Qnum].
  unfold Qle in Hx, Hxy. simpl in Hx, Hxy.
  destruct nx as [| px | px]; [| | lia].
  - destruct ny as [| py | py]; [lra | | lia].
    apply round_positive_nonneg. unfold Qle. simpl. lia.
  - destruct ny as [| py | py]; [lia | | lia].
    apply round_positive_mono; [reflexivity |].
    unfold Qle. simpl. exact Hxy.
Qed.

(** A natural number below [2 ^ 53] is a binary64 number. *)
Lemma round_binary64_nat (n : nat) :
  (Z.of_nat n < 2 ^ 53)%Z -> (round_binary64 (Qnat n) == Qnat n)%Q.
Proof.
  intros Hn. unfold round_binary64, Qnat. cbn [Qnum inject_Z].
  destruct (Z.of_nat n) as [| p | p] eqn:En; [reflexivity | | lia].
  change (Z.pos p # 1) with (inject_Z (Z.pos p)).
  assert (Hpos : (0 < inject_Z (Z.pos p))%Q) by reflexivity.
  destruct (binade_spec _ Hpos) as [H1 H2].
  set (b := binade (inject_Z (Z.pos p))) in *.
  assert (Hb0 : (0 <= b)%Z).
  { assert (H : (0 < b + 1)%Z); [| lia].
    apply two_lt_inv. apply Qle_lt_trans with (inject_Z (Z.pos p)); [| exact H2].
    change (2 ^ 0)%Q with (inject_Z 1). rewrite <- Zle_Qle. lia. }
  assert (Hb1 : (b < 53)%Z).
  { apply two_lt_inv. apply Qle_lt_trans with (inject_Z (Z.pos p)); [exact H1 |].
    rewrite <- two_Z by lia. rewrite <- Zlt_Qlt. exact Hn. }
  unfold round_positive. fold b.
  replace (Z.max (b - 52) (-1074)) with (b - 52)%Z by lia.
  assert (Hs : (inject_Z (Z.pos p) / 2 ^ (b - 52)
                == inject_Z (Z.pos p * 2 ^ (52 - b)))%Q).
  { rewrite inject_Z_mult, (two_Z (52 - b) ltac:(lia)).
    replace (b - 52)%Z with (- (52 - b))%Z by lia.
    rewrite Qpower_opp. unfold Qdiv. rewrite Qinv_involutive. reflexivity. }
  assert (Hr : round_half_even (inject_Z (Z.pos p) / 2 ^ (b - 52))
               = (Z.pos p * 2 ^ (52 - b))%Z).
  { rewrite <- (round_half_even_Z (Z.pos p * 2 ^ (52 - b))).
    apply Z.le_antisymm; apply round_half_even_mono; rewrite Hs;
      apply Qle_refl. }
  rewrite Hr, inject_Z_mult, (two_Z (52 - b) ltac:(lia)).
  rewrite <- Qmult_assoc, <- two_plus.
  replace (52 - b + (b - 52))%Z with 0%Z by lia.
  change (2 ^ 0)%Q with 1%Q. apply Qmult_1_r.
Qed.

(** ** Forecast bounds *)

Lemma Qnat_mult (a b : nat) : (Qnat (a * b) == Qnat a * Qnat b)%Q.
Proof. unfold Qnat. rewrite Nat2Z.inj_mul, inject_Z_mult. reflexivity. Qed.

Lemma sum_le_bound (xs : list nat) (b : nat) :
  Forall (fun x => (x <= b)%nat) xs ->
  (fold_right Nat.add 0%nat xs <= length xs * b)%nat.
Proof.
  induction 1 as [| x xs Hx _ IH]; simpl; lia.
Qed.

Lemma mean_bounded (xs : list nat) (b : nat) :
  xs <> [] -> Forall (fun x => (x <= b)%nat) xs ->
  (Z.of_nat b < 2 ^ 53)%Z ->
  (0 <= mean xs)%Q /\ (mean xs <= Qnat b)%Q.
Proof.
  intros Hne Hall Hb. unfold mean.
  set (q := (Qnat (fold_right Nat.add 0%nat xs) / Qnat (length xs))%Q).
  assert (Hlen : (0 < Qnat (length xs))%Q).
  { unfold Qnat. change 0%Q with (inject_Z 0). rewrite <- Zlt_Qlt.
    destruct xs; [congruence | simpl; lia]. }
  assert (Hq0 : (0 <= q)%Q).
  { apply Qle_shift_div_l; [exact Hlen |]. rewrite Qmult_0_l.
    change 0%Q with (Qnat 0). apply Qnat_le. lia. }
  assert (Hq1 : (q <= Qnat b)%Q).
  { apply Qle_shift_div_r; [exact Hlen |].
    rewrite Qmult_comm, <- Qnat_mult. apply Qnat_le, sum_le_bound, Hall. }
  split.
  - change 0%Q with (round_binary64 0) at 1.
    apply round_binary64_mono; [apply Qle_refl | exact Hq0].
  - rewrite <- (round_binary64_nat b Hb).
    apply round_binary64_mono; assumption.
Qed.

Lemma page_views_since_le (es : list RealtimeEvent) (now i : Z) (n : nat) :
  page_views_since es now i = Some n ->
  (n <= length (List.filter is_page_view es))%nat.
Proof.
  unfold page_views_since.
  destruct (List.filter is_page_view es) as [| e page_views].
  - intros H. inversion H. simpl. lia.
  - destruct (minutes_ago now i) as [bound |]; [| discriminate].
    unfold later_than.
    destruct (existsb tz_aware (e :: page_views)); [discriminate |].
    intros H.
    change (Some (length (events_after bound (e :: page_views))) = Some n)
      in H.
    injection H as <-.
    exact (filter_length_bound (fun x => (bound <? timestamp x)%Z)
             (e :: page_views)).
Qed.

Lemma double_1_1_pos : (0 <= double_1_1)%Q.
Proof. vm_compute. discriminate. Qed.

(** X18.  On a window of at most 1000 events a forecast is never
    negative and never more than the binary64 product of the number of
    page views the window holds and the literal [1.1] (so at most
    1100.0000000000002); its trend is always ["stable"]. *)
Theorem forecast_bounded (stream : StreamingWindow) (now : Z)
    (p : TrafficPrediction) :
  (length (items (events stream)) <= 1000)%nat ->
  _generate_predictions stream now = Some p ->
  let page_views :=
    length (List.filter is_page_view (items (events stream))) in
  (0 <= next_5_minutes p)%Q /\
  (next_5_minutes p <= round_binary64 (Qnat page_views * double_1_1))%Q /\
  (next_5_minutes p <= round_binary64 (1000 * double_1_1))%Q /\
  trend p = "stable".
Proof.
  intros Hlen Hp page_views.
  assert (Hpv : (page_views <= 1000)%nat).
  { subst page_views.
    pose proof (filter_length_bound is_page_view (items (events stream))).
    lia. }
  unfold _generate_predictions in Hp.
  destruct (length (items (events stream)) <? 10)%nat; [discriminate |].
  destruct (mapM _ _) as [counts |] eqn:Ec; [| discriminate].
  apply mapM_Some in Ec.
  assert (Hall : Forall (fun n => (n <= page_views)%nat) counts).
  { clear Hp. induction Ec as [| i n rest counts Hn _ IH]; constructor.
    - exact (page_views_since_le _ _ _ _ Hn).
    - exact IH. }
  destruct counts as [| c counts]; [discriminate |].
  inversion Hp; subst p; clear Hp. cbn [next_5_minutes trend].
  destruct (mean_bounded (c :: counts) page_views ltac:(discriminate) Hall
              ltac:(lia)) as [H0 H1].
  pose proof double_1_1_pos as Hd.
  assert (Hprod0 : (0 <= mean (c :: counts) * double_1_1)%Q)
    by (apply Qmult_le_0_compat; assumption).
  assert (Hprod1 : (mean (c :: counts) * double_1_1
                    <= Qnat page_views * double_1_1)%Q)
    by (apply Qmult_le_compat_r; assumption).
  split; [| split; [| split; [| reflexivity]]].
  - change 0%Q with (round_binary64 0) at 1.
    apply round_binary64_mono; [apply Qle_refl | exact Hprod0].
  - apply round_binary64_mono; assumption.
  - apply round_binary64_mono; [exact Hprod0 |].
    apply Qle_trans with (Qnat page_views * double_1_1)%Q; [exact Hprod1 |].
    apply Qmult_le_compat_r; [| exact Hd].
    change 1000%Q with (Qnat 1000). apply Qnat_le, Hpv.
Qed.

Lemma forecast_bounded_witness :
  exists p,
    _generate_predictions ten_events_window (minutes 1) = Some p /\
    (0 <= next_5_minutes p)%Q /\
    (next_5_minutes p <= round_binary64 (Qnat 10 * double_1_1))%Q.
Proof.
  destruct (_generate_predictions ten_events_window (minutes 1)) as [p |] eqn:Ep.
  - exists p. split; [reflexivity |].
    destruct (forecast_bounded ten_events_window (minutes 1) p
                ltac:(apply Nat.leb_le; vm_compute; reflexivity) Ep)
      as (H0 & H1 & _).
    split; [exact H0 | exact H1].
  - exfalso. revert Ep. vm_compute. discriminate.
Defined.

Lemma valid_rate_iff (q : Q) : valid_rate q = true <-> (0 <= q <= 1)%Q.
Proof.
  unfold valid_rate. rewrite andb_true_iff, !Qle_bool_iff. tauto.
Qed.

(** X19.  Aggregation never fails on a window of the running service:
    after any sequence of operations, [_aggregate_metrics] returns a
    snapshot (the rate constraints of [RealtimeMetrics] are met), stamped
    with the current time and carrying the window's conversion and bounce
    rates unchanged. *)
Theorem aggregation_always_validates (ops : list Op) (site : string)
    (w : StreamingWindow) (now : Z) :
  active_streams (run initialized_service ops) !! site = Some w ->
  exists r,
    _aggregate_metrics w now = Some r /\
    rm_timestamp r = now /\
    rm_conversion_rate r = metrics_get (metrics w) "conversion_rate" /\
    rm_bounce_rate r = metrics_get (metrics w) "bounce_rate".
Proof.
  intros Hw.
  assert (Hr : rates_bounded (metrics w)).
  { refine (run_rates ops initialized_service _ site w Hw).
    apply map_Forall_empty. }
  destruct Hr as (Hb & Hc & _).
  unfold _aggregate_metrics.
  rewrite (proj2 (valid_rate_iff _) Hb), (proj2 (valid_rate_iff _) Hc).
  simpl. eexists. repeat split.
Qed.

Lemma aggregation_always_validates_witness :
  exists r, _aggregate_metrics bouncing_window 7 = Some r /\
            rm_timestamp r = 7%Z.
Proof.
  destruct (aggregation_always_validates bouncing_ops "site-1"
              bouncing_window 7 bouncing_ops_lookup) as (r & H1 & H2 & _).
  exists r. split; [exact H1 | exact H2].
Defined.

(** * After a session stopped *)

Lemma apply_op_absent s o site :
  starts site o = false ->
  active_streams s !! site = None ->
  active_streams (apply_op s o) !! site = None.
Proof.
  intros Ho Hn.
  destruct o as [site' ws now | site' | site' evs ty now | n now
                | site' now | site' th now]; simpl in *.
  - apply String.eqb_neq in Ho. rewrite lookup_insert_ne; [exact Hn | exact Ho].
  - destruct (decide (site' = site)) as [-> | Hne].
    + apply lookup_delete_eq.
    + rewrite lookup_delete_ne; [exact Hn | exact Hne].
  - unfold process_realtime_data.
    destruct (make_events site' now evs); simpl; [| exact Hn].
    rewrite queue_put_streams. exact Hn.
  - unfold main_processor_step.
    destruct (processing_queue s) as [| e q]; [exact Hn |].
    unfold _process_events_batch. simpl.
    rewrite (batch_leaves_other_tenants_aux s); [exact Hn | right; exact Hn].
  - unfold alert_processor_step.
    destruct (active_streams s !! site'); [| exact Hn].
    rewrite check_alerts_streams. exact Hn.
  - exact Hn.
Qed.

(** X13.  After a tenant's session stopped, and as long as no session is
    started for it again, the tenant has no window whatever else happens
    (ingests and dispatches of its late events included), and an alert
    check for it emits no alert and leaves the service as it is. *)
Theorem no_activity_after_stop (s : Service) (site : string)
    (ops : list Op) (now : Z) :
  forallb (fun o => negb (starts site o)) ops = true ->
  let s' := run (stop_realtime_analysis s site) ops in
  active_streams s' !! site = None /\
  alert_processor_step s' site now = (s', []).
Proof.
  intros Hops s'.
  assert (Hn : active_streams s' !! site = None).
  { subst s'.
    assert (H0 : active_streams (stop_realtime_analysis s site) !! site = None)
      by apply lookup_delete_eq.
    revert H0. generalize (stop_realtime_analysis s site) as s0.
    induction ops as [| o ops IH]; intros s0 H0; simpl in *; [exact H0 |].
    apply andb_true_iff in Hops as [Ho Hops]. apply negb_true_iff in Ho.
    apply (IH Hops). apply apply_op_absent; assumption. }
  split; [exact Hn |].
  unfold alert_processor_step. rewrite Hn. reflexivity.
Qed.

Lemma no_activity_after_stop_witness :
  active_streams
    (run (stop_realtime_analysis bouncing_service "site-1")
         [Ingest "site-1" [one_event] "standard" 7%Z; Dispatch 100 8%Z;
          StartSession "site-2" 3 9%Z]) !! "site-1" = None.
Proof.
  exact (proj1 (no_activity_after_stop bouncing_service "site-1"
                  [Ingest "site-1" [one_event] "standard" 7%Z;
                   Dispatch 100 8%Z; StartSession "site-2" 3 9%Z]
                  10 eq_refl)).
Defined.

(** * Firing again *)

Lemma run_without_checks (ops : list Op) : forall s,
  forallb (fun o => negb (is_check o)) ops = true ->
  alert_cooldowns (run s ops) = alert_cooldowns s /\
  alert_rules (run s ops) = alert_rules s.
Proof.
  induction ops as [| o ops IH]; intros s H; simpl in *;
    [split; reflexivity |].
  apply andb_true_iff in H as [Ho Hops]. apply negb_true_iff in Ho.
  destruct (IH (apply_op s o) Hops) as [-> ->].
  split; [apply apply_op_cooldowns, Ho | apply apply_op_rules].
Qed.

(** X20.  A rule fires again once its cooldown is over: if it fired for a
    tenant at [t], no other alert check ran since, and at a time
    [t' >= t + cooldown_duration] the tenant has a window on which the
    rule's condition holds, then the alert check at [t'] emits the rule's
    alert again. *)
Theorem refire_after_cooldown (s : Service) (T R : string)
    (rule : AlertRule) (t : Z) (ops : list Op) (t' : Z)
    (w' : StreamingWindow) :
  NoDup (map fst (alert_rules s)) ->
  (R, rule) ∈ alert_rules s ->
  R ∈ fired (alert_processor_step s T t) ->
  forallb (fun o => negb (is_check o)) ops = true ->
  active_streams (run (fst (alert_processor_step s T t)) ops) !! T = Some w' ->
  (t + cooldown_duration rule <= t')%Z ->
  _check_alert_condition w' rule t' = true ->
  R ∈ fired (alert_processor_step
               (run (fst (alert_processor_step s T t)) ops) T t').
Proof.
  intros Hnd Hin Hfired Hops Hw' Ht' Hcond.
  assert (Hentry :
    alert_cooldowns (fst (alert_processor_step s T t)) !! cooldown_key T R
    = Some (t + cooldown_duration rule)%Z /\
    alert_rules (fst (alert_processor_step s T t)) = alert_rules s).
  { unfold fired, alert_processor_step in *.
    destruct (active_streams s !! T) as [w |]; [| inversion Hfired].
    unfold _check_alerts in *.
    pose proof (check_rules_fired_exact T w t (alert_rules s)
                  (alert_cooldowns s) R rule Hnd Hin) as H.
    destruct (check_rules _ _ _ _ _). simpl in *.
    split; [exact (H Hfired) | reflexivity]. }
  destruct Hentry as [Hentry Hrules].
  destruct (run_without_checks ops (fst (alert_processor_step s T t)) Hops)
    as [Hcd Hru].
  set (s2 := run (fst (alert_processor_step s T t)) ops) in *. clearbody s2.
  unfold fired, alert_processor_step. rewrite Hw'. unfold _check_alerts.
  pose proof (check_rules_fires_iff T w' t' (alert_rules s2)
                (alert_cooldowns s2) R) as H.
  destruct (check_rules _ _ _ _ _). simpl in *.
  apply H.
  - rewrite Hru, Hrules. exact Hnd.
  - exists rule. split; [rewrite Hru, Hrules; exact Hin |].
    split; [| exact Hcond].
    unfold in_cooldown. rewrite Hcd, Hentry. apply Z.ltb_ge. exact Ht'.
Qed.

Lemma refire_after_cooldown_witness :
  "high_bounce_rate"
  ∈ fired (alert_processor_step
             (run (fst (alert_processor_step bouncing_service "site-1" 0))
                  [ConfigureThresholds "site-1" ∅ 5%Z])
             "site-1" (minutes 30)).
Proof.
  apply (refire_after_cooldown bouncing_service "site-1" "high_bounce_rate"
           high_bounce_rate_rule 0 [ConfigureThresholds "site-1" ∅ 5%Z]
           (minutes 30) bouncing_window).
  - exact alert_rules_table_nodup.
  - change (("high_bounce_rate", high_bounce_rate_rule) ∈ alert_rules_table).
    do 2 apply list_elem_of_further. apply list_elem_of_here.
  - decide_by_compute.
  - reflexivity.
  - vm_compute. reflexivity.
  - vm_compute. discriminate.
  - vm_compute. reflexivity.
Defined.

(** * The websocket manager *)

Module WebSocketManagerProps.
Import WebSocketManager.

Lemma store_or_drop_lookup site l conns :
  store_or_drop site l conns !! site = entry l.
Proof.
  destruct l; simpl; [apply lookup_delete_eq | apply lookup_insert_eq].
Qed.

Lemma store_or_drop_lookup_ne site other l conns :
  site <> other -> store_or_drop site l conns !! other = conns !! other.
Proof.
  intros Hne. destruct l; simpl;
    [apply lookup_delete_ne | apply lookup_insert_ne]; exact Hne.
Qed.

Lemma store_or_drop_listed site l conns :
  map_Forall listed conns ->
  Forall (fun c => site_id c = site) l ->
  map_Forall listed (store_or_drop site l conns).
Proof.
  intros Hc Hl. destruct l as [| c l]; simpl.
  - apply map_Forall_delete, Hc.
  - apply map_Forall_insert_2; [| exact Hc]. split; [discriminate | exact Hl].
Qed.

Lemma filter_Forall {A} (P : A -> Prop) (f : A -> bool) (l : list A) :
  Forall P l -> Forall P (List.filter f l).
Proof.
  induction 1 as [| x l Hx _ IH]; simpl; [constructor |].
  destruct (f x); [constructor; assumption | exact IH].
Qed.

Lemma connect_consistent m ws site now m' :
  consistent m -> connect m ws site now true = Some m' -> consistent m'.
Proof.
  intros (Hl & _ & Ht) H. unfold connect in H. inversion H; subst; clear H.
  split; [| split; [reflexivity | simpl; lia]]. simpl.
  apply map_Forall_insert_2; [| exact Hl].
  split; [destruct (default [] _); discriminate |].
  apply Forall_app. split; [| repeat constructor].
  destruct (connections m !! site) as [l |] eqn:El; simpl; [| constructor].
  exact (proj2 (Hl _ _ El)).
Qed.

Lemma disconnect_consistent m ws site :
  consistent m -> consistent (disconnect m ws site).
Proof.
  intros (Hl & Ha & Ht). unfold disconnect.
  destruct (connection_map m !! ws); [| split; [exact Hl | split; assumption]].
  split; [| split; [reflexivity | simpl; lia]]. simpl.
  destruct (connections m !! site) as [l |] eqn:El; [| exact Hl].
  apply store_or_drop_listed; [exact Hl |].
  apply filter_Forall. exact (proj2 (Hl _ _ El)).
Qed.

Lemma remove_failed_consistent m c :
  consistent m -> consistent (_remove_failed_connection m c).
Proof.
  intros (Hl & Ha & Ht). unfold _remove_failed_connection.
  split; [| split; [reflexivity | simpl; lia]]. simpl.
  destruct (connections m !! site_id c) as [l |] eqn:El; [| exact Hl].
  apply store_or_drop_listed; [exact Hl |].
  apply filter_Forall. exact (proj2 (Hl _ _ El)).
Qed.

Lemma entry_filter_filter (f g : ConnectionInfo -> bool) l :
  entry (List.filter f l) ≫= (fun l' => entry (List.filter g l'))
  = entry (List.filter (fun c => f c && g c) l).
Proof.
  assert (E : List.filter g (List.filter f l)
              = List.filter (fun c => f c && g c) l).
  { induction l as [| c l IH]; simpl; [reflexivity |].
    destruct (f c); simpl; [destruct (g c); rewrite IH |]; auto. }
  destruct (List.filter f l) as [| c0 l0] eqn:Ef; simpl in *.
  - rewrite <- E. reflexivity.
  - rewrite <- E. reflexivity.
Qed.

(** Removing the connections [failed], all of [site], one after the
    other. *)
Lemma remove_failed_fold site failed : forall m,
  consistent m ->
  Forall (fun c => site_id c = site) failed ->
  consistent (fold_left _remove_failed_connection failed m) /\
  connections (fold_left _remove_failed_connection failed m) !! site
  = connections m !! site
      ≫= (fun l => entry (List.filter
                           (fun c => bool_decide (c ∉ failed)) l)) /\
  (forall other, other <> site ->
     connections (fold_left _remove_failed_connection failed m) !! other
     = connections m !! other) /\
  messages_sent (stats (fold_left _remove_failed_connection failed m))
  = messages_sent (stats m) /\
  messages_failed (stats (fold_left _remove_failed_connection failed m))
  = messages_failed (stats m).
Proof.
  induction failed as [| c failed IH]; intros m Hm Hf; simpl.
  - split; [exact Hm |]. split; [| repeat split; reflexivity].
    destruct (connections m !! site) as [l |] eqn:El; simpl; [| reflexivity].
    destruct Hm as (Hl & _). destruct (Hl _ _ El) as [Hne _].
    rewrite (filter_all _ l).
    + destruct l; [congruence | reflexivity].
    + rewrite Forall_forall. intros x _.
      first [reflexivity
            | apply bool_decide_eq_true_2; apply not_elem_of_nil].
  - inversion Hf as [| ? ? Hc Hrest]; subst.
    destruct (IH (_remove_failed_connection m c)
                 (remove_failed_consistent m c Hm) Hrest)
      as (H1 & H2 & H3 & H4 & H5).
    split; [exact H1 |]. split; [| split; [| split; [exact H4 | exact H5]]].
    + rewrite H2. unfold _remove_failed_connection at 1. simpl.
      destruct (connections m !! site_id c) as [l |] eqn:El; simpl;
        [| rewrite El; reflexivity].
      rewrite store_or_drop_lookup, entry_filter_filter.
      f_equal. apply filter_ext. intros x.
      destruct (decide (x = c)) as [-> | Hne].
      * rewrite (bool_decide_eq_false_2 (c <> c)) by tauto.
        rewrite (bool_decide_eq_false_2 (c ∉ c :: failed)); [reflexivity |].
        intros H. apply H. left.
      * rewrite (bool_decide_eq_true_2 (x <> c)) by exact Hne. simpl.
        apply bool_decide_ext. rewrite not_elem_of_cons. tauto.
    + intros other Ho. rewrite (H3 other Ho).
      unfold _remove_failed_connection. simpl.
      destruct (connections m !! site_id c); [| reflexivity].
      apply store_or_drop_lookup_ne. congruence.
Qed.

Lemma filter_not_failed (d : ConnectionInfo -> bool) (l : list ConnectionInfo) :
  List.filter (fun c => bool_decide (c ∉ List.filter (fun c => negb (d c)) l)) l
  = List.filter d l.
Proof.
  apply filter_ext_in. intros c Hc.
  destruct (d c) eqn:Ed.
  - apply bool_decide_eq_true_2. intros H.
    apply list_elem_of_In, filter_In in H as [_ H]. rewrite Ed in H. discriminate.
  - apply bool_decide_eq_false_2. intros H. apply H.
    apply list_elem_of_In, filter_In. split; [exact Hc | rewrite Ed; reflexivity].
Qed.

Lemma send_to_site_consistent m site delivers :
  consistent m -> consistent (fst (send_to_site m site delivers)).
Proof.
  intros Hm. unfold send_to_site.
  destruct (connections m !! site) as [l |] eqn:El; [| exact Hm].
  destruct (remove_failed_fold site
              (List.filter (fun c => negb (delivers (websocket c))) l) m Hm)
    as ((H1 & H2 & H3) & _).
  { apply filter_Forall. destruct Hm as (Hl & _). exact (proj2 (Hl _ _ El)). }
  split; [exact H1 | split; [exact H2 | exact H3]].
Qed.

Lemma run_calls_consistent cs : forall m,
  consistent m -> consistent (run_calls m cs).
Proof.
  induction cs as [| c cs IH]; intros m Hm; simpl; [exact Hm |].
  apply IH. destruct c as [ws site now accepted | ws site | site delivers];
    simpl.
  - destruct accepted; [| exact Hm].
    destruct (connect m ws site now true) as [m' |] eqn:E; [| exact Hm].
    exact (connect_consistent _ _ _ _ _ Hm E).
  - apply disconnect_consistent, Hm.
  - apply send_to_site_consistent, Hm.
Qed.

Lemma init_consistent : consistent init.
Proof.
  split; [apply map_Forall_empty | split; [reflexivity | simpl; lia]].
Qed.

(** X21.  After any sequence of connects, disconnects and sends, the
    manager registers no empty connection list and every listed connection
    under its own site; so [has_connections] holds exactly for the
    registered sites, which are the sites with a positive connection
    count, [active_sites] is their number, and the total count is never
    negative. *)
Theorem manager_stays_consistent (cs : list Call) (site : string) :
  (has_connections (run_calls init cs) site = true
   <-> is_Some (connections (run_calls init cs) !! site)) /\
  (site <> EmptyString ->
   (0 < get_connection_count (run_calls init cs) (Some site))%Z
   <-> has_connections (run_calls init cs) site = true) /\
  (forall l, connections (run_calls init cs) !! site = Some l ->
             l <> [] /\ Forall (fun c => site_id c = site) l) /\
  active_sites (stats (run_calls init cs))
  = Z.of_nat (size (connections (run_calls init cs))) /\
  (0 <= total_connections (stats (run_calls init cs)))%Z.
Proof.
  destruct (run_calls_consistent cs init init_consistent) as (Hl & Ha & Ht).
  split; [| split; [| split; [| split; [exact Ha | exact Ht]]]].
  - unfold has_connections.
    destruct (connections (run_calls init cs) !! site) as [l |] eqn:El.
    + destruct (Hl _ _ El) as [Hne _].
      split; [intros _; eexists; reflexivity | intros _].
      destruct l; [congruence | reflexivity].
    + split; [discriminate | intros [x Hx]; discriminate].
  - intros Hs. unfold get_connection_count, has_connections, truthy.
    apply String.eqb_neq in Hs. rewrite Hs.
    destruct (connections (run_calls init cs) !! site) as [l |]; simpl.
    + destruct l; simpl; split; intros H; try reflexivity; try lia;
        discriminate.
    + split; [lia | discriminate].
  - intros l El. exact (Hl _ _ El).
Qed.

(** X22.  On a consistent manager, [send_to_site] for a registered site
    returns the number of its connections the message could be sent on,
    which is at most their number; afterwards the site keeps exactly these
    connections, in order, or is no longer registered when none is left;
    other sites keep theirs, and the counters of sent and failed messages
    grow by the numbers of successes and failures. *)
Theorem send_to_site_keeps_live_connections (m : Manager) (site : string)
    (delivers : nat -> bool) (l : list ConnectionInfo) :
  consistent m ->
  connections m !! site = Some l ->
  let live := List.filter (fun c => delivers (websocket c)) l in
  let m' := fst (send_to_site m site delivers) in
  snd (send_to_site m site delivers) = Z.of_nat (length live) /\
  (length live <= length l)%nat /\
  connections m' !! site = entry live /\
  (forall other, other <> site ->
     connections m' !! other = connections m !! other) /\
  messages_sent (stats m')
  = (messages_sent (stats m) + Z.of_nat (length live))%Z /\
  messages_failed (stats m')
  = (messages_failed (stats m) + Z.of_nat (length l - length live))%Z.
Proof.
  intros Hm El live m'. subst live m'. unfold send_to_site. rewrite El.
  destruct (remove_failed_fold site
              (List.filter (fun c => negb (delivers (websocket c))) l) m Hm)
    as (_ & H2 & H3 & H4 & H5).
  { apply filter_Forall. destruct Hm as (Hl & _). exact (proj2 (Hl _ _ El)). }
  cbn [fst snd connections stats messages_sent messages_failed].
  split; [reflexivity |]. split; [apply filter_length_bound |].
  split.
  { rewrite H2, El. simpl.
    rewrite (filter_not_failed (fun c => delivers (websocket c)) l).
    reflexivity. }
  split; [exact H3 |]. split; [rewrite H4; reflexivity |].
  rewrite H5. do 2 f_equal.
  clear. induction l as [| c l IH]; simpl; [reflexivity |].
  pose proof (filter_length_bound (fun c => delivers (websocket c)) l).
  destruct (delivers (websocket c)); simpl; rewrite IH; lia.
Qed.

Lemma two_connections_consistent : consistent two_connections.
Proof. apply run_calls_consistent, init_consistent. Qed.

Lemma two_connections_lookup :
  connections two_connections !! "site-1" = Some two_connections_list.
Proof. vm_compute. reflexivity. Qed.

Lemma send_to_site_keeps_live_connections_witness :
  snd (send_to_site two_connections "site-1" (Nat.eqb 2)) = 1%Z /\
  connections (fst (send_to_site two_connections "site-1" (Nat.eqb 2)))
    !! "site-2"
  = connections two_connections !! "site-2".
Proof.
  destruct (send_to_site_keeps_live_connections two_connections "site-1"
              (Nat.eqb 2) two_connections_list two_connections_consistent
              two_connections_lookup) as (H1 & _ & _ & H4 & _).
  split; [rewrite H1; reflexivity |].
  apply H4. discriminate.
Defined.

(** X23.  Connect and disconnect are inverse on the registry: when a
    websocket that is not registered (neither in the map nor in the list
    of the site) connects to a site and then disconnects from it, the
    connection lists and the connection map are as before, and so is the
    total count. *)
Theorem connect_disconnect_round_trip (m m1 : Manager) (ws : nat)
    (site : string) (now : Z) :
  consistent m ->
  connection_map m !! ws = None ->
  (forall l, connections m !! site = Some l ->
             Forall (fun c => websocket c <> ws) l) ->
  connect m ws site now true = Some m1 ->
  connections (disconnect m1 ws site) = connections m /\
  connection_map (disconnect m1 ws site) = connection_map m /\
  total_connections (stats (disconnect m1 ws site))
  = total_connections (stats m).
Proof.
  intros (Hl & _ & Ht) Hmap Hother Hc.
  unfold connect in Hc. inversion Hc; subst; clear Hc.
  unfold disconnect. cbn [connection_map connections stats total_connections].
  rewrite !lookup_insert_eq.
  assert (Hfilter : forall l, Forall (fun c => websocket c <> ws) l ->
    List.filter (fun c => negb (websocket c =? ws)%nat)
      (l ++ [{| conn_id := next_id m; websocket := ws; site_id := site;
                connected_at := now; last_ping := now;
                subscriptions := [] |}]) = l).
  { intros l Hall. induction Hall as [| c l Hcw _ IH]; simpl.
    - rewrite Nat.eqb_refl. reflexivity.
    - apply Nat.eqb_neq in Hcw. rewrite Hcw. simpl. rewrite IH. reflexivity. }
  split; [| split; [apply delete_insert_id, Hmap | simpl in *; lia]].
  destruct (connections m !! site) as [l |] eqn:El; simpl.
  - rewrite (Hfilter l (Hother l eq_refl)).
    destruct (Hl _ _ El) as [Hne _].
    destruct l as [| c l]; [congruence |]. simpl.
    rewrite insert_insert_eq. apply insert_id. exact El.
  - rewrite Nat.eqb_refl. simpl. apply delete_insert_id. exact El.
Qed.

Lemma connect_disconnect_round_trip_witness :
  exists m1,
    connect two_connections 9 "site-1" 5 true = Some m1 /\
    connections (disconnect m1 9 "site-1") = connections two_connections.
Proof.
  eexists. split; [reflexivity |].
  apply (connect_disconnect_round_trip two_connections _ 9 "site-1" 5
           two_connections_consistent).
  - vm_compute. reflexivity.
  - intros l Hl. rewrite two_connections_lookup in Hl.
    inversion Hl; subst. repeat constructor; vm_compute; discriminate.
  - reflexivity.
Defined.

End WebSocketManagerProps.
